(** * KNOT VirtualThing: the Modbus interface (src/modbus-interface.c)

    A shallow embedding of the Modbus connection manager and register
    reader, and the properties of its specification that concern them.

    Conventions
    - C [int] values are [Z]; [uint8_t] values are [Z] reduced modulo 256.
    - A C string is a [string]; its terminating NUL is the end of the
      [string] (a NUL character inside the [string] terminates it too).
    - A pointer to a library object (an [l_timeout], an [l_io], a
      [modbus_t]) is an [option handle]; [None] is [NULL].
    - The libraries the file calls (ELL, libmodbus, the two drivers of
      modbus-driver.c) are outside modbus-interface.c.  What they answer
      is taken from a [platform] record; the objects they allocate and
      release are tracked in the state, following the documented
      contract of each call, so that the use of a released object is
      visible as a [Fault]. *)

From stdpp Require Import gmap strings list.
From Stdlib Require Import ZArith Lia Ascii.

Open Scope Z_scope.

(** ** Constants and enumerations *)

(** [EINVAL] of <errno.h> (Linux). *)
Definition EINVAL : Z := 22.

Definition TCP_PREFIX : string := "tcp://".
Definition TCP_PREFIX_SIZE : nat := 6.
Definition RTU_PREFIX : string := "serial://".
Definition RTU_PREFIX_SIZE : nat := 9.
Definition RECONNECT_TIMEOUT : Z := 5.

(** [enum driver_type]. *)
Definition TCP : Z := 0.
Definition RTU : Z := 1.

(** [enum modbus_types_offset]. *)
Definition TYPE_BOOL : Z := 1.
Definition TYPE_BYTE : Z := 8.
Definition TYPE_U16 : Z := 16.
Definition TYPE_U32 : Z := 32.
Definition TYPE_U64 : Z := 64.

(** ** C strings and [strncmp] *)

(** The byte a C string holds at its first position: the terminating NUL
    when the string is empty. *)
Definition first_byte (s : string) : Z :=
  match s with
  | EmptyString => 0
  | String c _ => Z.of_N (N_of_ascii c)
  end.

Definition rest (s : string) : string :=
  match s with
  | EmptyString => EmptyString
  | String _ s' => s'
  end.

(** [strncmp s1 s2 n]: compares at most [n] bytes, stops after a NUL, and
    returns the difference of the first two bytes that differ. *)
Fixpoint strncmp (s1 s2 : string) (n : nat) : Z :=
  match n with
  | O => 0
  | S n' =>
      let c1 := first_byte s1 in
      let c2 := first_byte s2 in
      if c1 =? c2
      then if c1 =? 0 then 0 else strncmp (rest s1) (rest s2) n'
      else c1 - c2
  end.

(** [static int parse_url(const char *url)]. *)
Definition parse_url (url : string) : Z :=
  if strncmp url TCP_PREFIX TCP_PREFIX_SIZE =? 0 then TCP
  else if strncmp url RTU_PREFIX RTU_PREFIX_SIZE =? 0 then RTU
  else - EINVAL.

(** [url] begins with [p]. *)
Definition begins_with (p url : string) : Prop :=
  exists tl : string, url = (p ++ tl)%string.

(** No byte of [p] is NUL. *)
Fixpoint nul_free (p : string) : Prop :=
  match p with
  | EmptyString => True
  | String c p' => first_byte (String c p') <> 0 /\ nul_free p'
  end.

(** ** Object representation: [union modbus_types] and [memcpy] *)

Definition uint8 (z : Z) : Z := z mod 256.

(** The [n] low bytes of [v], least significant first. *)
Fixpoint le_bytes (n : nat) (v : Z) : list Z :=
  match n with
  | O => []
  | S n' => uint8 v :: le_bytes n' (v / 256)
  end.

(** The bytes of an [n]-byte unsigned object holding [v]. *)
Definition object_bytes (big_endian : bool) (n : nat) (v : Z) : list Z :=
  if big_endian then rev (le_bytes n v) else le_bytes n v.

(** The size of the member of [union modbus_types] that the selector
    [bit_offset] stands for: [bool] and [uint8_t] take one byte. *)
Definition member_size (bit_offset : Z) : nat :=
  if bit_offset =? TYPE_BOOL then 1%nat else Z.to_nat (bit_offset / 8).

(** The selectors the [switch] of [modbus_read_data] has a case for. *)
Definition recognised (bit_offset : Z) : Prop :=
  bit_offset ∈ [TYPE_BOOL; TYPE_BYTE; TYPE_U16; TYPE_U32; TYPE_U64].

(** [sizeof(union modbus_types)]: the size of its largest member. *)
Definition SIZEOF_TMP : nat := 8.

(** [memset(&tmp, 0, sizeof(tmp))]. *)
Definition tmp_zero : list Z := replicate SIZEOF_TMP 0.

(** A store to a member of the union: every member starts at offset 0 and
    the bytes past the member keep their value. *)
Definition union_store (bytes tmp : list Z) : list Z :=
  bytes ++ drop (length bytes) tmp.

(** [tmp.val_byte] read as an rvalue. *)
Definition val_byte (tmp : list Z) : Z := nth 0 tmp 0.

(** [memcpy(dst, src, n)] on the bytes of the two objects. *)
Definition memcpy (dst src : list Z) (n : nat) : list Z :=
  take n src ++ drop n dst.

(** [byte_tmp[i]], a [uint8_t]. *)
Definition byte_at (byte_tmp : list Z) (i : Z) : Z :=
  uint8 (nth (Z.to_nat i) byte_tmp 0).

(** The loop
    [for (i = 0; i < sizeof(byte_tmp); i++) tmp.val_byte |= byte_tmp[i] << i;]
    with [n] iterations left; the assignment converts back to [uint8_t]. *)
Fixpoint pack_loop (n : nat) (i : Z) (byte_tmp tmp : list Z) : list Z :=
  match n with
  | O => tmp
  | S n' =>
      pack_loop n' (i + 1) byte_tmp
        (union_store
           [uint8 (Z.lor (val_byte tmp) (Z.shiftl (byte_at byte_tmp i) i))]
           tmp)
  end.

(** ** The libraries outside the file *)

Definition handle := nat.

(** A [void *]; [NULL] is 0. *)
Definition pointer := Z.
Definition NULL : pointer := 0.

(** A caller-supplied callback function, by name. *)
Definition callback := nat.

(** [struct modbus_driver] (modbus-driver.h): the table of a transport
    driver.  A read primitive gets the context pointer, the register
    address and the outside world, and yields its return code, what the
    destination holds after the call, and the world after the call.
    [create] tells whether a context was made; [destroy] releases it. *)
Record modbus_driver (W : Type) := {
  create : string -> W -> bool * W;
  destroy : option handle -> W -> W;
  read_bool : option handle -> Z -> W -> Z * bool * W;
  read_byte : option handle -> Z -> W -> Z * list Z * W;
  read_u16 : option handle -> Z -> W -> Z * Z * W;
  read_u32 : option handle -> Z -> W -> Z * Z * W;
  read_u64 : option handle -> Z -> W -> Z * Z * W
}.
Arguments create {W}.
Arguments destroy {W}.
Arguments read_bool {W}.
Arguments read_byte {W}.
Arguments read_u16 {W}.
Arguments read_u32 {W}.
Arguments read_u64 {W}.

(** Everything the file takes from outside: the world the libraries act
    on (the network, the slave device, [errno]), the two drivers of
    modbus-driver.c, the libmodbus calls and the outcome of the ELL
    allocations. *)
Record platform := {
  world : Type;
  errno : world -> Z;
  big_endian : bool;
  tcp : modbus_driver world;
  rtu : modbus_driver world;
  ext_set_slave : option handle -> Z -> world -> Z * world;
  ext_connect : option handle -> world -> Z * world;
  ext_get_socket : option handle -> world -> Z;
  ext_close : option handle -> world -> world;
  l_timeout_create_succeeds : world -> bool;
  l_io_new_succeeds : Z -> world -> bool
}.

(** An [l_timeout] of ELL: [expiry] is the delay in milliseconds it is
    armed for ([None] once it has fired and was not armed again);
    [timeout_data] is the user data it hands to its callback.  The only
    callback the file registers is [attempt_connect]. *)
Record l_timeout := {
  expiry : option Z;
  timeout_data : pointer
}.

(** An [l_io] of ELL: the descriptor it watches and the user data of its
    disconnect handler ([None]: no handler set).  The only handler the
    file registers is [on_disconnected]. *)
Record l_io := {
  io_fd : Z;
  disconnect_data : option pointer
}.

(** What the surroundings can observe. *)
Inductive event :=
| Connected (cb : callback) (user_data : pointer)
| Disconnected (cb : callback) (user_data : pointer)
| Read (bit_offset : Z) (reg_addr : Z).

Inductive fault :=
| NullCall       (* a call through a NULL function pointer *)
| UseAfterFree.  (* a released library object handed to its library *)

(** ** The state

    The six file-scope variables of modbus-interface.c, the library
    objects that are allocated (a pointer to an object that is not in
    its table any more dangles), the outside world, and the trace of the
    observable events. *)

Section Interface.

Context {P : platform}.

Record state := {
  connection_interface : option (modbus_driver (world P));
  connect_to : option handle;
  modbus_io : option handle;
  modbus_ctx : option handle;
  conn_cb : option callback;
  disconn_cb : option callback;
  timeouts : gmap handle l_timeout;
  ios : gmap handle l_io;
  contexts : gset handle;
  next_handle : handle;
  env : world P;
  trace : list event
}.

Definition set_connection_interface (v : option (modbus_driver (world P))) (s : state) : state :=
  {| connection_interface := v;
     connect_to := connect_to s;
     modbus_io := modbus_io s;
     modbus_ctx := modbus_ctx s;
     conn_cb := conn_cb s;
     disconn_cb := disconn_cb s;
     timeouts := timeouts s;
     ios := ios s;
     contexts := contexts s;
     next_handle := next_handle s;
     env := env s;
     trace := trace s |}.

Definition set_connect_to (v : option handle) (s : state) : state :=
  {| connection_interface := connection_interface s;
     connect_to := v;
     modbus_io := modbus_io s;
     modbus_ctx := modbus_ctx s;
     conn_cb := conn_cb s;
     disconn_cb := disconn_cb s;
     timeouts := timeouts s;
     ios := ios s;
     contexts := contexts s;
     next_handle := next_handle s;
     env := env s;
     trace := trace s |}.

Definition set_modbus_io (v : option handle) (s : state) : state :=
  {| connection_interface := connection_interface s;
     connect_to := connect_to s;
     modbus_io := v;
     modbus_ctx := modbus_ctx s;
     conn_cb := conn_cb s;
     disconn_cb := disconn_cb s;
     timeouts := timeouts s;
     ios := ios s;
     contexts := contexts s;
     next_handle := next_handle s;
     env := env s;
     trace := trace s |}.

Definition set_modbus_ctx (v : option handle) (s : state) : state :=
  {| connection_interface := connection_interface s;
     connect_to := connect_to s;
     modbus_io := modbus_io s;
     modbus_ctx := v;
     conn_cb := conn_cb s;
     disconn_cb := disconn_cb s;
     timeouts := timeouts s;
     ios := ios s;
     contexts := contexts s;
     next_handle := next_handle s;
     env := env s;
     trace := trace s |}.

Definition set_conn_cb (v : option callback) (s : state) : state :=
  {| connection_interface := connection_interface s;
     connect_to := connect_to s;
     modbus_io := modbus_io s;
     modbus_ctx := modbus_ctx s;
     conn_cb := v;
     disconn_cb := disconn_cb s;
     timeouts := timeouts s;
     ios := ios s;
     contexts := contexts s;
     next_handle := next_handle s;
     env := env s;
     trace := trace s |}.

Definition set_disconn_cb (v : option callback) (s : state) : state :=
  {| connection_interface := connection_interface s;
     connect_to := connect_to s;
     modbus_io := modbus_io s;
     modbus_ctx := modbus_ctx s;
     conn_cb := conn_cb s;
     disconn_cb := v;
     timeouts := timeouts s;
     ios := ios s;
     contexts := contexts s;
     next_handle := next_handle s;
     env := env s;
     trace := trace s |}.

Definition set_timeouts (v : gmap handle l_timeout) (s : state) : state :=
  {| connection_interface := connection_interface s;
     connect_to := connect_to s;
     modbus_io := modbus_io s;
     modbus_ctx := modbus_ctx s;
     conn_cb := conn_cb s;
     disconn_cb := disconn_cb s;
     timeouts := v;
     ios := ios s;
     contexts := contexts s;
     next_handle := next_handle s;
     env := env s;
     trace := trace s |}.

Definition set_ios (v : gmap handle l_io) (s : state) : state :=
  {| connection_interface := connection_interface s;
     connect_to := connect_to s;
     modbus_io := modbus_io s;
     modbus_ctx := modbus_ctx s;
     conn_cb := conn_cb s;
     disconn_cb := disconn_cb s;
     timeouts := timeouts s;
     ios := v;
     contexts := contexts s;
     next_handle := next_handle s;
     env := env s;
     trace := trace s |}.

Definition set_contexts (v : gset handle) (s : state) : state :=
  {| connection_interface := connection_interface s;
     connect_to := connect_to s;
     modbus_io := modbus_io s;
     modbus_ctx := modbus_ctx s;
     conn_cb := conn_cb s;
     disconn_cb := disconn_cb s;
     timeouts := timeouts s;
     ios := ios s;
     contexts := v;
     next_handle := next_handle s;
     env := env s;
     trace := trace s |}.

Definition set_next_handle (v : handle) (s : state) : state :=
  {| connection_interface := connection_interface s;
     connect_to := connect_to s;
     modbus_io := modbus_io s;
     modbus_ctx := modbus_ctx s;
     conn_cb := conn_cb s;
     disconn_cb := disconn_cb s;
     timeouts := timeouts s;
     ios := ios s;
     contexts := contexts s;
     next_handle := v;
     env := env s;
     trace := trace s |}.

Definition set_env (v : world P) (s : state) : state :=
  {| connection_interface := connection_interface s;
     connect_to := connect_to s;
     modbus_io := modbus_io s;
     modbus_ctx := modbus_ctx s;
     conn_cb := conn_cb s;
     disconn_cb := disconn_cb s;
     timeouts := timeouts s;
     ios := ios s;
     contexts := contexts s;
     next_handle := next_handle s;
     env := v;
     trace := trace s |}.

Definition set_trace (v : list event) (s : state) : state :=
  {| connection_interface := connection_interface s;
     connect_to := connect_to s;
     modbus_io := modbus_io s;
     modbus_ctx := modbus_ctx s;
     conn_cb := conn_cb s;
     disconn_cb := disconn_cb s;
     timeouts := timeouts s;
     ios := ios s;
     contexts := contexts s;
     next_handle := next_handle s;
     env := env s;
     trace := v |}.

(** The state of a process that has not called anything yet: file-scope
    variables are zero-initialised. *)
Definition initial (w : world P) : state :=
  {| connection_interface := None; connect_to := None; modbus_io := None;
     modbus_ctx := None; conn_cb := None; disconn_cb := None;
     timeouts := ∅; ios := ∅; contexts := ∅; next_handle := 1%nat;
     env := w; trace := [] |}.

(** ** Computations: state passing with faults *)

Inductive result (A : Type) :=
| Ok (a : A) (s : state)
| Fault (f : fault).
Arguments Ok {A}.
Arguments Fault {A}.

Definition M (A : Type) : Type := state -> result A.

Definition ret {A} (a : A) : M A := fun s => Ok a s.

Definition bind {A B} (m : M A) (k : A -> M B) : M B :=
  fun s => match m s with
           | Ok a s' => k a s'
           | Fault f => Fault f
           end.

Definition get {A} (field : state -> A) : M A := fun s => Ok (field s) s.

Definition modify (f : state -> state) : M unit := fun s => Ok tt (f s).

Definition raise {A} (f : fault) : M A := fun _ => Fault f.

Notation "'let*' x ':=' m 'in' k" := (bind m (fun x => k))
  (at level 10, x pattern, m at level 100, k at level 200).
Notation "m ';;' k" := (bind m (fun _ => k))
  (at level 100, k at level 200, right associativity).

Definition emit (e : event) : M unit :=
  modify (fun s => set_trace (trace s ++ [e]) s).

(** A fresh object address. *)
Definition alloc : M handle :=
  let* h := get next_handle in
  modify (set_next_handle (S h));;
  ret h.

(** ** ELL: timeouts and I/O watches *)

Definition l_timeout_create_ms (ms : Z) (user_data : pointer)
  : M (option handle) :=
  let* w := get env in
  if l_timeout_create_succeeds P w then
    let* h := alloc in
    modify (fun s =>
      set_timeouts
        (<[h := {| expiry := Some ms; timeout_data := user_data |}]>
           (timeouts s)) s);;
    ret (Some h)
  else ret None.

Definition l_timeout_modify (timeout : option handle) (seconds : Z) : M unit :=
  match timeout with
  | None => ret tt
  | Some h =>
      let* ts := get timeouts in
      match ts !! h with
      | None => raise UseAfterFree
      | Some t =>
          if 0 <? seconds then
            modify (set_timeouts
              (<[h := {| expiry := Some (1000 * seconds);
                         timeout_data := timeout_data t |}]> ts))
          else ret tt
      end
  end.

Definition l_timeout_remove (timeout : option handle) : M unit :=
  match timeout with
  | None => ret tt
  | Some h =>
      let* ts := get timeouts in
      match ts !! h with
      | None => raise UseAfterFree
      | Some _ => modify (set_timeouts (delete h ts))
      end
  end.

Definition l_io_new (fd : Z) : M (option handle) :=
  let* w := get env in
  if fd <? 0 then ret None
  else if l_io_new_succeeds P fd w then
    let* h := alloc in
    modify (fun s =>
      set_ios (<[h := {| io_fd := fd; disconnect_data := None |}]> (ios s)) s);;
    ret (Some h)
  else ret None.

Definition l_io_set_disconnect_handler (io : option handle)
    (user_data : pointer) : M bool :=
  match io with
  | None => ret false
  | Some h =>
      let* watches := get ios in
      match watches !! h with
      | None => raise UseAfterFree
      | Some i =>
          modify (set_ios
            (<[h := {| io_fd := io_fd i;
                       disconnect_data := Some user_data |}]> watches));;
          ret true
      end
  end.

Definition l_io_destroy (io : option handle) : M unit :=
  match io with
  | None => ret tt
  | Some h =>
      let* watches := get ios in
      match watches !! h with
      | None => raise UseAfterFree
      | Some _ => modify (set_ios (delete h watches))
      end
  end.

(** ** libmodbus and the driver table *)

(** A context pointer handed to libmodbus is NULL or points to a context
    that has not been freed. *)
Definition valid_ctx (ctx : option handle) : M unit :=
  match ctx with
  | None => ret tt
  | Some h =>
      let* cs := get contexts in
      if decide (h ∈ cs) then ret tt else raise UseAfterFree
  end.

Definition modbus_set_slave (ctx : option handle) (slave : Z) : M Z :=
  valid_ctx ctx;;
  let* w := get env in
  let '(rc, w') := ext_set_slave P ctx slave w in
  modify (set_env w');;
  ret rc.

Definition modbus_connect (ctx : option handle) : M Z :=
  valid_ctx ctx;;
  let* w := get env in
  let '(rc, w') := ext_connect P ctx w in
  modify (set_env w');;
  ret rc.

Definition modbus_get_socket (ctx : option handle) : M Z :=
  valid_ctx ctx;;
  let* w := get env in
  ret (ext_get_socket P ctx w).

Definition modbus_close (ctx : option handle) : M unit :=
  valid_ctx ctx;;
  let* w := get env in
  modify (set_env (ext_close P ctx w)).

(** The table [connection_interface]; before [modbus_start] has selected
    a driver its function pointers are NULL. *)
Definition driver : M (modbus_driver (world P)) :=
  let* ci := get connection_interface in
  match ci with
  | None => raise NullCall
  | Some d => ret d
  end.

(** [connection_interface.create(url)]. *)
Definition driver_create (url : string) : M (option handle) :=
  let* d := driver in
  let* w := get env in
  let '(made, w') := create d url w in
  modify (set_env w');;
  if made then
    let* h := alloc in
    modify (fun s => set_contexts ({[h]} ∪ contexts s) s);;
    ret (Some h)
  else ret None.

(** [connection_interface.destroy(ctx)]. *)
Definition driver_destroy (ctx : option handle) : M unit :=
  let* d := driver in
  valid_ctx ctx;;
  let* w := get env in
  modify (set_env (destroy d ctx w));;
  match ctx with
  | None => ret tt
  | Some h => modify (fun s => set_contexts (contexts s ∖ {[h]}) s)
  end.

(** [connection_interface.read_X(modbus_ctx, reg_addr, &dst)] for the
    primitive [prim] of the table. *)
Definition driver_read {A}
    (prim : modbus_driver (world P) -> option handle -> Z -> world P ->
            Z * A * world P)
    (bit_offset reg_addr : Z) : M (Z * A) :=
  let* d := driver in
  let* ctx := get modbus_ctx in
  valid_ctx ctx;;
  emit (Read bit_offset reg_addr);;
  let* w := get env in
  let '(rc, v, w') := prim d ctx reg_addr w in
  modify (set_env w');;
  ret (rc, v).

(** ** The functions of modbus-interface.c *)

Definition current_errno : M Z := get (fun s => errno P (env s)).

(** The call [cb(user_data)] under [if (cb)]. *)
Definition call_if_set (cb : option callback)
    (e : callback -> event) : M unit :=
  match cb with
  | Some f => emit (e f)
  | None => ret tt
  end.

(** [static void on_disconnected(struct l_io *io, void *user_data)]. *)
Definition on_disconnected (io : option handle) (user_data : pointer)
  : M unit :=
  let* ctx := get modbus_ctx in
  modbus_close ctx;;
  let* cb := get disconn_cb in
  call_if_set cb (fun f => Disconnected f user_data);;
  let* watch := get modbus_io in
  l_io_destroy watch;;
  modify (set_modbus_io None);;
  let* to := get connect_to in
  l_timeout_modify to RECONNECT_TIMEOUT.

(** [static void attempt_connect(struct l_timeout *to, void *user_data)]. *)
Definition attempt_connect (to : option handle) (user_data : pointer)
  : M unit :=
  let* ctx := get modbus_ctx in
  let* rc := modbus_connect ctx in
  if rc <? 0 then l_timeout_modify to RECONNECT_TIMEOUT
  else
    let* fd := modbus_get_socket ctx in
    let* watch := l_io_new fd in
    modify (set_modbus_io watch);;
    let* _ := l_io_set_disconnect_handler watch NULL in
    let* cb := get conn_cb in
    call_if_set cb (fun f => Connected f user_data).

(** The [switch (bit_offset)] of [modbus_read_data]: the return code and
    the temporary union after it. *)
Definition read_switch (reg_addr bit_offset : Z) (tmp : list Z)
  : M (Z * list Z) :=
  if bit_offset =? TYPE_BOOL then
    let* (rc, v) := driver_read read_bool bit_offset reg_addr in
    ret (rc, union_store (object_bytes (big_endian P) 1 (Z.b2z v)) tmp)
  else if bit_offset =? TYPE_BYTE then
    let* (rc, byte_tmp) := driver_read read_byte bit_offset reg_addr in
    ret (rc, pack_loop 8 0 byte_tmp tmp)
  else if bit_offset =? TYPE_U16 then
    let* (rc, v) := driver_read read_u16 bit_offset reg_addr in
    ret (rc, union_store (object_bytes (big_endian P) 2 v) tmp)
  else if bit_offset =? TYPE_U32 then
    let* (rc, v) := driver_read read_u32 bit_offset reg_addr in
    ret (rc, union_store (object_bytes (big_endian P) 4 v) tmp)
  else if bit_offset =? TYPE_U64 then
    let* (rc, v) := driver_read read_u64 bit_offset reg_addr in
    ret (rc, union_store (object_bytes (big_endian P) 8 v) tmp)
  else ret (- EINVAL, tmp).

(** [int modbus_read_data(int reg_addr, int bit_offset,
    knot_value_type *out)]: the return code and the bytes of [*out]
    after the call, [out] being its bytes before. *)
Definition modbus_read_data (reg_addr bit_offset : Z) (out : list Z)
  : M (Z * list Z) :=
  let* (rc, tmp) := read_switch reg_addr bit_offset tmp_zero in
  if rc <? 0 then
    let* e := current_errno in
    ret (- e, out)
  else ret (rc, memcpy out tmp SIZEOF_TMP).

(** The [switch (parse_url(url))] of [modbus_start]: the table it copies
    into [connection_interface]; [None] is its [default] case. *)
Definition selected_table (url : string) : option (modbus_driver (world P)) :=
  let kind := parse_url url in
  if kind =? TCP then Some (tcp P)
  else if kind =? RTU then Some (rtu P)
  else None.

(** [int modbus_start(const char *url, int slave_id, connected_cb,
    disconnected_cb, void *user_data)]. *)
Definition modbus_start (url : string) (slave_id : Z)
    (connected_cb disconnected_cb : option callback) (user_data : pointer)
  : M Z :=
  match selected_table url with
  | None => ret (- EINVAL)
  | Some table =>
      modify (set_connection_interface (Some table));;
      let* ctx := driver_create url in
      modify (set_modbus_ctx ctx);;
      match ctx with
      | None => let* e := current_errno in ret (- e)
      | Some _ =>
          let* rc := modbus_set_slave ctx slave_id in
          if rc <? 0 then let* e := current_errno in ret (- e)
          else
            modify (set_conn_cb connected_cb);;
            modify (set_disconn_cb disconnected_cb);;
            let* to := l_timeout_create_ms 1 NULL in
            modify (set_connect_to to);;
            ret 0
      end
  end.

(** [void modbus_stop(void)]. *)
Definition modbus_stop : M unit :=
  let* to := get connect_to in
  match to with
  | Some _ => l_timeout_remove to
  | None => ret tt
  end;;
  let* watch := get modbus_io in
  match watch with
  | Some _ => l_io_destroy watch
  | None => ret tt
  end;;
  let* ctx := get modbus_ctx in
  match ctx with
  | Some _ => driver_destroy ctx
  | None => ret tt
  end.

(** ** The main loop of ELL

    A timeout that is armed can expire: it is one-shot, so it is left
    not armed, and its callback [attempt_connect] runs with the timeout
    and its user data.  A watch with a disconnect handler can see its
    descriptor hang up: the handler is taken off the watch and
    [on_disconnected] runs with the watch and the handler's user data.
    The surroundings can call [modbus_stop] and [modbus_start]. *)

Definition fired (h : handle) (t : l_timeout) (s : state) : state :=
  set_timeouts
    (<[h := {| expiry := None; timeout_data := timeout_data t |}]>
       (timeouts s)) s.

Definition hung_up (h : handle) (i : l_io) (s : state) : state :=
  set_ios (<[h := {| io_fd := io_fd i; disconnect_data := None |}]> (ios s)) s.

Inductive loop_step : state -> state -> Prop :=
| timeout_expires h t ms s s' :
    timeouts s !! h = Some t ->
    expiry t = Some ms ->
    attempt_connect (Some h) (timeout_data t) (fired h t s) = Ok tt s' ->
    loop_step s s'
| watch_hangs_up h i ud s s' :
    ios s !! h = Some i ->
    disconnect_data i = Some ud ->
    on_disconnected (Some h) ud (hung_up h i s) = Ok tt s' ->
    loop_step s s'
| stop_called s s' :
    modbus_stop s = Ok tt s' ->
    loop_step s s'.

Inductive transition : state -> state -> Prop :=
| start_called url slave_id ccb dcb ud rc s s' :
    modbus_start url slave_id ccb dcb ud s = Ok rc s' ->
    transition s s'
| loop_steps s s' :
    loop_step s s' ->
    transition s s'.

(** The states any sequence of the four transitions reaches. *)
Definition reachable (s : state) : Prop :=
  exists w, rtc transition (initial w) s.

(** The states of one session: [modbus_start] called once, in a process
    that had not called it before, and then the main loop and
    [modbus_stop]. *)
Definition session_state (s : state) : Prop :=
  exists w url slave_id ccb dcb ud rc s0,
    modbus_start url slave_id ccb dcb ud (initial w) = Ok rc s0 /\
    rtc loop_step s0 s.



(** Some timeout is armed. *)
Definition timer_armed (s : state) : Prop :=
  exists h t ms, timeouts s !! h = Some t /\ expiry t = Some ms.

(** Some watch exists. *)
Definition watch_live (s : state) : Prop :=
  exists h i, ios s !! h = Some i.

(** A callback was invoked with the argument [ud]. *)
Definition callback_argument (ud : pointer) (s : state) : Prop :=
  exists cb, Connected cb ud ∈ trace s \/ Disconnected cb ud ∈ trace s.

(** What holds throughout a session: the only timeout is the one
    [connect_to] points to, the only watch is the one [modbus_io] points
    to, both carry NULL as user data, no timeout is armed while a watch
    exists, and every callback so far got NULL. *)
Definition session_inv (s : state) : Prop :=
  (forall h t, timeouts s !! h = Some t ->
     connect_to s = Some h /\ timeout_data t = NULL) /\
  (forall h i, ios s !! h = Some i ->
     modbus_io s = Some h /\
     (forall ud, disconnect_data i = Some ud -> ud = NULL) /\
     (forall h' t', timeouts s !! h' = Some t' -> expiry t' = None)) /\
  (forall ud, callback_argument ud s -> ud = NULL).

End Interface.

Arguments state : clear implicits.
Arguments M : clear implicits.
Arguments result : clear implicits.
Arguments Ok {P A}.
Arguments Fault {P A}.

Notation "'let*' x ':=' m 'in' k" := (bind m (fun x => k))
  (at level 10, x pattern, m at level 100, k at level 200).
Notation "m ';;' k" := (bind m (fun _ => k))
  (at level 100, k at level 200, right associativity).

(** ** A test platform

    The world is the value of [errno].  [create] always makes a context;
    [modbus_set_slave] accepts the slave identifiers 0..247 and fails
    with EINVAL on the others; [modbus_connect] succeeds, or fails with
    ECONNREFUSED, as [connect_ok] says; a read yields [reading] for every
    coil and register, or fails with ETIMEDOUT when [reading] is
    negative. *)

Definition ECONNREFUSED : Z := 111.
Definition ETIMEDOUT : Z := 110.

Definition test_read {A} (reading count : Z) (v : A) (w : Z) : Z * A * Z :=
  if reading <? 0 then (-1, v, ETIMEDOUT) else (count, v, w).

Definition test_driver (reading : Z) : modbus_driver Z :=
  {| create := fun _ w => (true, w);
     destroy := fun _ w => w;
     read_bool := fun _ _ => test_read reading 1 (negb (reading =? 0));
     read_byte := fun _ _ =>
       test_read reading 8
         (map (fun i => Z.b2z (Z.testbit reading (Z.of_nat i))) (seq 0 8));
     read_u16 := fun _ _ => test_read reading 1 reading;
     read_u32 := fun _ _ => test_read reading 2 reading;
     read_u64 := fun _ _ => test_read reading 4 reading |}.

Definition test_platform (connect_ok : bool) (reading : Z) : platform :=
  {| world := Z;
     errno := fun w => w;
     big_endian := false;
     tcp := test_driver reading;
     rtu := test_driver reading;
     ext_set_slave := fun _ slave w =>
       if (0 <=? slave) && (slave <=? 247) then (0, w) else (-1, EINVAL);
     ext_connect := fun _ w =>
       if connect_ok then (0, w) else (-1, ECONNREFUSED);
     ext_get_socket := fun _ _ => 3;
     ext_close := fun _ w => w;
     l_timeout_create_succeeds := fun _ => true;
     l_io_new_succeeds := fun _ _ => true |}.

(** ** Scenarios on the test platform *)

(** The state a computation ends in ([s0] if it faults). *)
Definition after {P A} (r : result P A) (s0 : state P) : state P :=
  match r with
  | Ok _ s => s
  | Fault _ => s0
  end.

(** A process that has called nothing, with [errno] 0. *)
Definition fresh (connect_ok : bool) (reading : Z)
  : state (test_platform connect_ok reading) :=
  @initial (test_platform connect_ok reading) 0.

(** After [modbus_start] on a TCP URL with slave 17, the callbacks 1 and 2
    and the user data 42. *)
Definition started (connect_ok : bool) (reading : Z)
  : state (test_platform connect_ok reading) :=
  after (modbus_start "tcp://10.0.0.5:502" 17 (Some 1%nat) (Some 2%nat) 42
           (fresh connect_ok reading))
        (fresh connect_ok reading).

(** The timeout [modbus_start] creates, and the same once it has fired. *)
Definition first_timeout : l_timeout :=
  {| expiry := Some 1; timeout_data := NULL |}.

Definition spent_timeout : l_timeout :=
  {| expiry := None; timeout_data := NULL |}.

(** The timeout has just expired and the main loop is about to call
    [attempt_connect]. *)
Definition expired (connect_ok : bool)
  : state (test_platform connect_ok 5) :=
  fired 2%nat first_timeout (started connect_ok 5).

(** After the first connection attempt, which succeeds. *)
Definition connected : state (test_platform true 5) :=
  after (attempt_connect (Some 2%nat) NULL (expired true)) (started true 5).

(** After the watch has seen the connection hang up. *)
Definition dropped : state (test_platform true 5) :=
  after (on_disconnected (Some 3%nat) NULL
           (hung_up 3%nat {| io_fd := 3; disconnect_data := Some NULL |}
              connected))
        connected.

(** After a second [modbus_start] while connected. *)
Definition restarted : state (test_platform true 5) :=
  after (modbus_start "tcp://10.0.0.5:502" 17 (Some 1%nat) (Some 2%nat) 42
           connected)
        connected.

(** After [modbus_stop] in the started state. *)
Definition stopped : state (test_platform true 5) :=
  after (modbus_stop (started true 5)) (started true 5).

(** The bytes of a [knot_value_type] before a read. *)
Definition out9 : list Z := replicate 10 9.


(** ** Running sessions, reads included

    The claims above look at one session through [loop_step].  The
    surroundings also read registers between the events of the main
    loop, so the notions below add [modbus_read_data] to the steps. *)

Section Sessions.

Context {P : platform}.
Implicit Types (s : state P).

(** What can happen between [modbus_start] and [modbus_stop]: the timeout
    expires, the watch sees a hang-up, the surroundings read. *)
Inductive event_step : state P -> state P -> Prop :=
| timer_event h t ms s s' :
    timeouts s !! h = Some t ->
    expiry t = Some ms ->
    attempt_connect (Some h) (timeout_data t) (fired h t s) = Ok tt s' ->
    event_step s s'
| hang_up_event h i ud s s' :
    ios s !! h = Some i ->
    disconnect_data i = Some ud ->
    on_disconnected (Some h) ud (hung_up h i s) = Ok tt s' ->
    event_step s s'
| read_event reg_addr bit_offset out r s s' :
    modbus_read_data reg_addr bit_offset out s = Ok r s' ->
    event_step s s'.

(** The same, and [modbus_stop]. *)
Inductive activity : state P -> state P -> Prop :=
| event_happens s s' :
    event_step s s' ->
    activity s s'
| stop_happens s s' :
    modbus_stop s = Ok tt s' ->
    activity s s'.

(** The states after one [modbus_start] in a fresh process, whatever it
    returned, and any activity. *)
Definition active_state s : Prop :=
  exists w url slave_id ccb dcb ud rc s0,
    modbus_start url slave_id ccb dcb ud (initial w) = Ok rc s0 /\
    rtc activity s0 s.

(** The states of a session that was started with success and has not
    been stopped. *)
Definition running_state s : Prop :=
  exists w url slave_id ccb dcb ud s0,
    modbus_start url slave_id ccb dcb ud (initial w) = Ok 0 s0 /\
    rtc event_step s0 s.

(** [connect_to] is NULL and there is no timeout, or it points to the
    only timeout. *)
Definition timer_ok s : Prop :=
  match connect_to s with
  | None => timeouts s = ∅
  | Some h =>
      exists t, timeouts s = {[h := t]} /\ timeout_data t = NULL /\
                (h < next_handle s)%nat
  end.

(** [modbus_io] is NULL and there is no watch, or it points to the only
    watch, which has its disconnect handler, while no timeout is armed. *)
Definition watch_ok s : Prop :=
  match modbus_io s with
  | None => ios s = ∅
  | Some h =>
      exists fd,
        ios s = {[h := {| io_fd := fd; disconnect_data := Some NULL |}]} /\
        (h < next_handle s)%nat /\
        forall h' t, timeouts s !! h' = Some t -> expiry t = None
  end.

(** A driver is selected; [modbus_ctx] is NULL and there is no context,
    or it points to the only context. *)
Definition ctx_ok s : Prop :=
  is_Some (connection_interface s) /\
  match modbus_ctx s with
  | None => contexts s = ∅
  | Some c => contexts s = {[c]} /\ (c < next_handle s)%nat
  end.

Definition running_inv s : Prop := timer_ok s /\ watch_ok s /\ ctx_ok s.

(** Both callbacks were given to [modbus_start]. *)
Definition callbacks_set s : Prop :=
  is_Some (conn_cb s) /\ is_Some (disconn_cb s).

End Sessions.

(** The callback calls of a trace alternate, the first being a call of
    the connected callback when [expect_connected] holds: the result is
    what the next call has to be, or [None] when two calls of the same
    callback follow each other.  Reads do not count. *)
Fixpoint alternates_from (expect_connected : bool) (tr : list event)
  : option bool :=
  match tr with
  | [] => Some expect_connected
  | Connected _ _ :: tr' =>
      if expect_connected then alternates_from false tr' else None
  | Disconnected _ _ :: tr' =>
      if expect_connected then None else alternates_from true tr'
  | Read _ _ :: tr' => alternates_from expect_connected tr'
  end.

(** What holds of the trace when both callbacks are set. *)
Definition alternation_inv {P} (s : state P) : Prop :=
  callbacks_set s ->
  exists b,
    alternates_from true (trace s) = Some b /\
    (timer_armed s -> b = true) /\
    (watch_live s -> b = false).

(** The unsigned value of an object from its bytes. *)
Fixpoint le_value (bytes : list Z) : Z :=
  match bytes with
  | [] => 0
  | b :: bytes' => b + 256 * le_value bytes'
  end.

Definition object_value (big_endian : bool) (bytes : list Z) : Z :=
  if big_endian then le_value (rev bytes) else le_value bytes.

(** Bit [j] of the bitwise or of [byte_tmp[i] << i] over the indices
    [i], [i + 1], ... ([n] of them). *)
Fixpoint shifted_or_bit (n : nat) (i : Z) (byte_tmp : list Z) (j : Z) : bool :=
  match n with
  | O => false
  | S n' =>
      Z.testbit (byte_at byte_tmp i) (j - i)
      || shifted_or_bit n' (i + 1) byte_tmp j
  end.

(** * The daemon's entry point (src/main.c)

    [main] is embedded as a function from what the outside answers
    (the loaded settings, whether ELL starts, what [device_start] and
    [daemon] return, the signals that arrive) to its exit status and the
    calls it makes to the functions outside main.c, in order. *)

Definition EXIT_SUCCESS : Z := 0.
Definition EXIT_FAILURE : Z := 1.
Definition SIGINT : Z := 2.
Definition SIGTERM : Z := 15.

(** [struct settings] (settings.h): the fields main.c reads. *)
Record settings := {
  help : bool;
  detach : bool;
  credentials_path : string;
  device_path : string;
  rabbitmq_path : string
}.

(** The blocks main.c allocates: [conf_files] and its three strings. *)
Inductive block :=
| conf_files
| conf_credentials_path
| conf_device_path
| conf_rabbitmq_path.

(** The calls out of main.c.  [device_start] is shown with the three
    paths [conf_files] holds when it is called, [l_error] with the error
    number it prints. *)
Inductive call :=
| settings_load
| settings_free
| l_main_init
| l_log_set_stderr
| l_new (b : block)
| l_strdup (b : block) (s : string)
| l_free (b : block)
| device_start (credentials device rabbitmq : string)
| device_destroy
| l_error (err : Z)
| l_main_exit
| daemon
| l_info
| l_main_quit.

(** What the outside answers: the result of [settings_load] ([None] is
    NULL), of [l_main_init], of [device_start], of [daemon] with the
    [errno] it leaves, and the signals ELL hands to the handler while
    the main loop runs. *)
Record outside := {
  loaded : option settings;
  main_init : bool;
  start_err : Z;
  daemon_rc : Z;
  daemon_errno : Z;
  signals : list Z
}.

(** [static void signal_handler(uint32_t signo, void *user_data)]. *)
Definition signal_handler (signo : Z) : list call :=
  if (signo =? SIGINT) || (signo =? SIGTERM) then [l_info; l_main_quit]
  else [].

(** [static int detach_daemon(void)]: its result and its calls. *)
Definition detach_daemon (o : outside) : Z * list call :=
  (if negb (daemon_rc o =? 0) then - daemon_errno o else 0, [daemon]).

(** [static void set_device_settings(conf_files, settings)]. *)
Definition set_device_settings (st : settings) : list call :=
  [l_strdup conf_credentials_path (credentials_path st);
   l_strdup conf_device_path (device_path st);
   l_strdup conf_rabbitmq_path (rabbitmq_path st)].

(** [static void free_device_settings(conf_files)]. *)
Definition free_device_settings : list call :=
  [l_free conf_credentials_path; l_free conf_device_path;
   l_free conf_rabbitmq_path; l_free conf_files].

Definition is_quit (c : call) : bool :=
  match c with
  | l_main_quit => true
  | _ => false
  end.

(** [l_main_run_with_signal(signal_handler, NULL)] of ELL: the handler
    runs on each signal; the loop returns once the handler has called
    [l_main_quit], and is still running when the signals are used up
    without that. *)
Fixpoint l_main_run_with_signal (sigs : list Z) : list call * bool :=
  match sigs with
  | [] => ([], false)
  | signo :: sigs' =>
      let calls := signal_handler signo in
      if existsb is_quit calls then (calls, true)
      else
        let '(calls', returned) := l_main_run_with_signal sigs' in
        (calls ++ calls', returned)
  end.

(** [int main(int argc, char *argv[])]: the exit status ([None] while
    the main loop has not returned) and the calls made. *)
Definition main (o : outside) : option Z * list call :=
  match loaded o with
  | None => (Some EXIT_FAILURE, [settings_load])
  | Some st =>
      if help st then (Some EXIT_SUCCESS, [settings_load; settings_free])
      else if negb (main_init o) then
        (Some EXIT_FAILURE, [settings_load; l_main_init; settings_free])
      else
        let started :=
          [settings_load; l_main_init; l_log_set_stderr; l_new conf_files]
          ++ set_device_settings st
          ++ [device_start (credentials_path st) (device_path st)
                (rabbitmq_path st)] in
        if negb (start_err o =? 0) then
          (Some EXIT_FAILURE,
           started ++ [l_error (- start_err o); l_main_exit; settings_free]
           ++ free_device_settings)
        else
          let '(err, detaching) :=
            if detach st then detach_daemon o else (0, []) in
          if detach st && negb (err =? 0) then
            (Some EXIT_FAILURE,
             started ++ free_device_settings ++ detaching
             ++ [l_error (- err); settings_free; l_main_exit])
          else
            let '(handled, returned) := l_main_run_with_signal (signals o) in
            let running :=
              started ++ free_device_settings ++ detaching
              ++ [settings_free] ++ handled in
            if returned then
              (Some EXIT_SUCCESS, running ++ [device_destroy; l_main_exit])
            else (None, running)
  end.

(** How many calls of a trace satisfy [p]. *)
Definition calls_of (p : call -> bool) (tr : list call) : nat :=
  length (filter (fun c => p c = true) tr).

Definition is_settings_free (c : call) : bool :=
  match c with settings_free => true | _ => false end.

Definition is_main_init (c : call) : bool :=
  match c with l_main_init => true | _ => false end.

Definition is_main_exit (c : call) : bool :=
  match c with l_main_exit => true | _ => false end.

Definition is_device_start (c : call) : bool :=
  match c with device_start _ _ _ => true | _ => false end.

Definition is_device_destroy (c : call) : bool :=
  match c with device_destroy => true | _ => false end.

Definition block_eqb (a b : block) : bool :=
  match a, b with
  | conf_files, conf_files
  | conf_credentials_path, conf_credentials_path
  | conf_device_path, conf_device_path
  | conf_rabbitmq_path, conf_rabbitmq_path => true
  | _, _ => false
  end.

Definition allocates (b : block) (c : call) : bool :=
  match c with
  | l_new b' | l_strdup b' _ => block_eqb b b'
  | _ => false
  end.

Definition frees (b : block) (c : call) : bool :=
  match c with
  | l_free b' => block_eqb b b'
  | _ => false
  end.

(** Some signal of the list makes the handler quit the main loop. *)
Definition quit_requested (sigs : list Z) : bool :=
  existsb (fun signo => (signo =? SIGINT) || (signo =? SIGTERM)) sigs.

(** ** A second test platform

    Like the first, with a successful [modbus_connect], but [create],
    [l_timeout_create_ms] and [l_io_new] succeed as the three flags say
    ([create] fails with ENOMEM) and the byte read leaves [coil_bytes]
    in the buffer. *)

Definition ENOMEM : Z := 12.

Definition lab_driver (create_ok : bool) (coil_bytes : list Z)
  : modbus_driver Z :=
  {| create := fun _ w => if create_ok then (true, w) else (false, ENOMEM);
     destroy := fun _ w => w;
     read_bool := fun _ _ w => (1, true, w);
     read_byte := fun _ _ w => (8, coil_bytes, w);
     read_u16 := fun _ _ w => (1, 0, w);
     read_u32 := fun _ _ w => (2, 0, w);
     read_u64 := fun _ _ w => (4, 0, w) |}.

Definition lab_platform (create_ok timeout_ok io_ok : bool)
    (coil_bytes : list Z) : platform :=
  {| world := Z;
     errno := fun w => w;
     big_endian := true;
     tcp := lab_driver create_ok coil_bytes;
     rtu := lab_driver create_ok coil_bytes;
     ext_set_slave := fun _ _ w => (0, w);
     ext_connect := fun _ w => (0, w);
     ext_get_socket := fun _ _ => 3;
     ext_close := fun _ w => w;
     l_timeout_create_succeeds := fun _ => timeout_ok;
     l_io_new_succeeds := fun _ _ => io_ok |}.

(** A fresh process on the second platform, and the same after
    [modbus_start] on a serial URL with slave 1 and both callbacks. *)
Definition lab_fresh (create_ok timeout_ok io_ok : bool) (coil_bytes : list Z)
  : state (lab_platform create_ok timeout_ok io_ok coil_bytes) :=
  @initial (lab_platform create_ok timeout_ok io_ok coil_bytes) 0.

Definition lab_started (create_ok timeout_ok io_ok : bool)
    (coil_bytes : list Z)
  : state (lab_platform create_ok timeout_ok io_ok coil_bytes) :=
  after (modbus_start "serial:///dev/ttyUSB0" 1 (Some 1%nat) (Some 2%nat) 0
           (lab_fresh create_ok timeout_ok io_ok coil_bytes))
        (lab_fresh create_ok timeout_ok io_ok coil_bytes).

(** The timeout of that session has just expired, on a platform where
    no watch can be made. *)
Definition lab_expired : state (lab_platform true true false []) :=
  fired 2%nat first_timeout (lab_started true true false []).

(** The watch of the connected state has seen the hang-up and the main
    loop is about to call [on_disconnected]. *)
Definition hanging_up : state (test_platform true 5) :=
  hung_up 3%nat {| io_fd := 3; disconnect_data := Some NULL |} connected.

(** A third test platform, on which the outside world counts the calls
    of [modbus_close]; everything succeeds.  On it: a session started on
    a TCP URL with both callbacks, connected at the first attempt, whose
    watch has just seen the hang-up. *)
Definition counting_platform : platform :=
  {| world := Z;
     errno := fun _ => 0;
     big_endian := false;
     tcp := test_driver 5;
     rtu := test_driver 5;
     ext_set_slave := fun _ _ w => (0, w);
     ext_connect := fun _ w => (0, w);
     ext_get_socket := fun _ _ => 3;
     ext_close := fun _ w => w + 1;
     l_timeout_create_succeeds := fun _ => true;
     l_io_new_succeeds := fun _ _ => true |}.

Definition counting_started : state counting_platform :=
  after (modbus_start "tcp://10.0.0.5:502" 17 (Some 1%nat) (Some 2%nat) 0
           (@initial counting_platform 0))
        (@initial counting_platform 0).

Definition counting_connected : state counting_platform :=
  after (attempt_connect (Some 2%nat) NULL
           (fired 2%nat first_timeout counting_started))
        counting_started.

Definition counting_hanging_up : state counting_platform :=
  hung_up 3%nat {| io_fd := 3; disconnect_data := Some NULL |}
    counting_connected.

(** Answers of the outside for [main]: detaching is asked for and
    [daemon] fails with EAGAIN; nothing is asked for and SIGTERM arrives
    after SIGHUP. *)
Definition plain_settings (detached : bool) : settings :=
  {| help := false; detach := detached;
     credentials_path := "/etc/knot/credentials.conf";
     device_path := "/etc/knot/device.conf";
     rabbitmq_path := "/etc/knot/rabbitmq.conf" |}.

Definition daemon_fails : outside :=
  {| loaded := Some (plain_settings true); main_init := true;
     start_err := 0; daemon_rc := -1; daemon_errno := 11; signals := [] |}.

Definition terminated : outside :=
  {| loaded := Some (plain_settings false); main_init := true;
     start_err := 0; daemon_rc := 0; daemon_errno := 0;
     signals := [1; SIGTERM] |}.

(** * Properties *)

(** ** The driver selector *)

Lemma first_byte_inj (a b : ascii) (s t : string) :
  first_byte (String a s) = first_byte (String b t) -> a = b.
Proof.
  simpl. intros H. apply N2Z.inj in H.
  rewrite <- (ascii_N_embedding a), <- (ascii_N_embedding b). now f_equal.
Qed.

(** Comparing against a NUL-free literal over its whole length is the
    prefix test. *)
Lemma strncmp_prefix (p : string) :
  nul_free p ->
  forall url, strncmp url p (String.length p) = 0 <-> begins_with p url.
Proof.
  induction p as [|c p IH]; intros Hp url.
  - simpl. split; [intros _; now exists url | reflexivity].
  - destruct Hp as [Hc Hp].
    change (String.length (String c p)) with (S (String.length p)).
    cbn [strncmp].
    destruct (Z.eqb_spec (first_byte url) (first_byte (String c p))) as [E|E].
    + destruct url as [|a url]; [exfalso; apply Hc; symmetry; exact E|].
      apply first_byte_inj in E. subst a.
      destruct (Z.eqb_spec (first_byte (String c url)) 0) as [E0|_];
        [exfalso; apply Hc; exact E0|].
      cbn [rest]. rewrite (IH Hp url). split.
      * intros [tl ->]. now exists tl.
      * intros [tl Htl]. simpl in Htl. injection Htl as ->. now exists tl.
    + split.
      * intros H. lia.
      * intros [tl ->]. now destruct E.
Qed.

Lemma tcp_prefix_test (url : string) :
  strncmp url TCP_PREFIX TCP_PREFIX_SIZE = 0 <-> begins_with "tcp://" url.
Proof. apply (strncmp_prefix "tcp://"). cbv. intuition discriminate. Qed.

Lemma rtu_prefix_test (url : string) :
  strncmp url RTU_PREFIX RTU_PREFIX_SIZE = 0 <-> begins_with "serial://" url.
Proof. apply (strncmp_prefix "serial://"). cbv. intuition discriminate. Qed.

Lemma tcp_not_rtu (url : string) :
  begins_with "tcp://" url -> begins_with "serial://" url -> False.
Proof. intros [a ->] [b H]. discriminate H. Qed.

(** C2.  The driver selector classifies a URL by its literal prefix: TCP
    exactly for the URLs that begin with the six characters "tcp://", RTU
    exactly for those that begin with the nine characters "serial://",
    and -EINVAL for every other string, among them "tcp" and "tcp:/".
    The selector is a function of the string alone. *)
Theorem parse_url_classifies (url : string) :
  (parse_url url = TCP <-> begins_with "tcp://" url) /\
  (parse_url url = RTU <-> begins_with "serial://" url) /\
  (parse_url url = - EINVAL <->
     ~ begins_with "tcp://" url /\ ~ begins_with "serial://" url) /\
  parse_url "tcp" = - EINVAL /\ parse_url "tcp:/" = - EINVAL /\
  parse_url "serial:/" = - EINVAL /\ parse_url "" = - EINVAL.
Proof.
  pose proof (tcp_prefix_test url) as Ht.
  pose proof (rtu_prefix_test url) as Hr.
  pose proof (tcp_not_rtu url) as Hx.
  unfold parse_url.
  destruct (Z.eqb_spec (strncmp url TCP_PREFIX TCP_PREFIX_SIZE) 0) as [E1|E1];
    [|destruct (Z.eqb_spec (strncmp url RTU_PREFIX RTU_PREFIX_SIZE) 0)
        as [E2|E2]];
    unfold TCP, RTU, EINVAL;
    (repeat split; try reflexivity; try (intros; exfalso; intuition lia);
     intuition (try discriminate; auto)).
Qed.

(** ** The register reader *)

Section Reader.

Context {P : platform}.
Implicit Types (s : state P) (out tmp : list Z).

Lemma read_switch_unrecognised s reg_addr bit_offset tmp :
  ~ recognised bit_offset ->
  read_switch reg_addr bit_offset tmp s = Ok (- EINVAL, tmp) s.
Proof.
  intros H. unfold read_switch.
  repeat case_match; try reflexivity;
    exfalso; apply H; unfold recognised;
    rewrite !elem_of_cons; lia.
Qed.

(** The five cases of the [switch]. *)
Lemma read_switch_bool s reg_addr tmp :
  read_switch reg_addr TYPE_BOOL tmp s
  = (let* (rc, v) := driver_read read_bool TYPE_BOOL reg_addr in
     ret (rc, union_store (object_bytes (big_endian P) 1 (Z.b2z v)) tmp)) s.
Proof. reflexivity. Qed.

Lemma read_switch_byte s reg_addr tmp :
  read_switch reg_addr TYPE_BYTE tmp s
  = (let* (rc, byte_tmp) := driver_read read_byte TYPE_BYTE reg_addr in
     ret (rc, pack_loop 8 0 byte_tmp tmp)) s.
Proof. reflexivity. Qed.

Lemma read_switch_u16 s reg_addr tmp :
  read_switch reg_addr TYPE_U16 tmp s
  = (let* (rc, v) := driver_read read_u16 TYPE_U16 reg_addr in
     ret (rc, union_store (object_bytes (big_endian P) 2 v) tmp)) s.
Proof. reflexivity. Qed.

Lemma read_switch_u32 s reg_addr tmp :
  read_switch reg_addr TYPE_U32 tmp s
  = (let* (rc, v) := driver_read read_u32 TYPE_U32 reg_addr in
     ret (rc, union_store (object_bytes (big_endian P) 4 v) tmp)) s.
Proof. reflexivity. Qed.

Lemma read_switch_u64 s reg_addr tmp :
  read_switch reg_addr TYPE_U64 tmp s
  = (let* (rc, v) := driver_read read_u64 TYPE_U64 reg_addr in
     ret (rc, union_store (object_bytes (big_endian P) 8 v) tmp)) s.
Proof. reflexivity. Qed.

(** C3.  For a selector outside {1, 8, 16, 32, 64} the call invokes no
    primitive of the driver (the state, its trace included, is what it
    was) and leaves [*out] alone, but what it returns is [-errno] for the
    value [errno] happens to have, not -EINVAL: the [default] case sets
    [rc = -EINVAL] and the error branch overwrites it. *)
Theorem unrecognised_selector_returns_stale_errno s reg_addr bit_offset out :
  ~ recognised bit_offset ->
  modbus_read_data reg_addr bit_offset out s
  = Ok (- errno P (env s), out) s.
Proof.
  intros H. unfold modbus_read_data, bind.
  rewrite read_switch_unrecognised by exact H.
  reflexivity.
Qed.

(** C9.  A call that returns a negative code has left [*out] as it was. *)
Theorem negative_return_leaves_out s s' reg_addr bit_offset out rc out' :
  modbus_read_data reg_addr bit_offset out s = Ok (rc, out') s' ->
  rc < 0 ->
  out' = out.
Proof.
  unfold modbus_read_data, bind.
  destruct (read_switch reg_addr bit_offset tmp_zero s)
    as [[rc0 tmp] s1|f]; [|discriminate].
  destruct (Z.ltb_spec rc0 0) as [Hneg|Hpos]; cbn.
  - intros [= _ <- _] _. reflexivity.
  - intros [= <- _ _] Hrc. lia.
Qed.

Lemma length_le_bytes n v : length (le_bytes n v) = n.
Proof. revert v. induction n as [|n IH]; intros v; cbn; [|rewrite IH]; done. Qed.

Lemma length_object_bytes be n v : length (object_bytes be n v) = n.
Proof.
  unfold object_bytes. destruct be; [rewrite length_rev|]; apply length_le_bytes.
Qed.

(** A store into the zeroed union leaves zero past the stored member. *)
Lemma union_store_zero (bytes : list Z) :
  (length bytes <= SIZEOF_TMP)%nat ->
  length (union_store bytes tmp_zero) = SIZEOF_TMP /\
  forall i, (length bytes <= i < SIZEOF_TMP)%nat ->
            union_store bytes tmp_zero !! i = Some 0.
Proof.
  intros Hlen. unfold union_store, tmp_zero. split.
  - rewrite length_app, length_drop, length_replicate. lia.
  - intros i Hi. rewrite lookup_app_r by lia.
    rewrite lookup_drop. apply lookup_replicate_2. lia.
Qed.

(** The packing loop only ever writes the first byte of the union. *)
Lemma pack_loop_first_byte n i byte_tmp v tl :
  0 <= v < 256 ->
  exists b, pack_loop n i byte_tmp (v :: tl) = b :: tl /\ 0 <= b < 256.
Proof.
  revert i v. induction n as [|n IH]; intros i v Hv.
  - exists v. done.
  - cbn [pack_loop]. unfold union_store. cbn [length drop app].
    apply IH. unfold uint8. apply Z.mod_pos_bound. lia.
Qed.

Lemma memcpy_whole out tmp :
  length tmp = SIZEOF_TMP ->
  memcpy out tmp SIZEOF_TMP = tmp ++ drop SIZEOF_TMP out.
Proof. intros H. unfold memcpy. rewrite <- H, firstn_all. reflexivity. Qed.

(** What the [switch] leaves in the temporary union when it does not
    fail: eight bytes, zero past the member that was read. *)
Lemma read_switch_tmp s s' reg_addr bit_offset rc tmp :
  read_switch reg_addr bit_offset tmp_zero s = Ok (rc, tmp) s' ->
  0 <= rc ->
  recognised bit_offset /\
  length tmp = SIZEOF_TMP /\
  forall i, (member_size bit_offset <= i < SIZEOF_TMP)%nat -> tmp !! i = Some 0.
Proof.
  intros Hsw Hrc.
  destruct (decide (recognised bit_offset)) as [Hrec|Hrec]; cycle 1.
  { rewrite read_switch_unrecognised in Hsw by exact Hrec.
    injection Hsw as <- _ _. unfold EINVAL in Hrc. lia. }
  split; [exact Hrec|].
  unfold recognised in Hrec.
  assert (Hcases : bit_offset = TYPE_BOOL \/ bit_offset = TYPE_BYTE \/
                   bit_offset = TYPE_U16 \/ bit_offset = TYPE_U32 \/
                   bit_offset = TYPE_U64)
    by (rewrite !elem_of_cons, elem_of_nil in Hrec; tauto).
  clear Hrec.
  destruct Hcases as [->|[->|[->|[->| ->]]]];
    [rewrite read_switch_bool in Hsw | rewrite read_switch_byte in Hsw
    | rewrite read_switch_u16 in Hsw | rewrite read_switch_u32 in Hsw
    | rewrite read_switch_u64 in Hsw];
    unfold bind in Hsw;
    match type of Hsw with
    | context [driver_read ?prim ?b ?r ?s] =>
        destruct (driver_read prim b r s) as [[rc0 v] s1|f]; [|discriminate]
    end;
    cbv beta iota delta [ret] in Hsw;
    match type of Hsw with
    | Ok (?a, ?b) _ = _ =>
        assert (rc = a) by congruence; assert (tmp = b) by congruence
    end;
    subst rc tmp; clear Hsw.
  - pose proof (union_store_zero (object_bytes (big_endian P) 1 (Z.b2z v)))
      as H.
    rewrite length_object_bytes in H. apply H. cbv. lia.
  - change tmp_zero with (0 :: replicate 7 0).
    destruct (pack_loop_first_byte 8 0 v 0 (replicate 7 0)) as (b & -> & _);
      [lia|].
    split; [reflexivity|].
    intros i Hi. change (member_size TYPE_BYTE) with 1%nat in Hi.
    destruct i as [|i]; [lia|]. cbn [lookup list_lookup].
    apply lookup_replicate_2. unfold SIZEOF_TMP in Hi. lia.
  - pose proof (union_store_zero (object_bytes (big_endian P) 2 v)) as H.
    rewrite length_object_bytes in H. apply H. cbv. lia.
  - pose proof (union_store_zero (object_bytes (big_endian P) 4 v)) as H.
    rewrite length_object_bytes in H. apply H. cbv. lia.
  - pose proof (union_store_zero (object_bytes (big_endian P) 8 v)) as H.
    rewrite length_object_bytes in H. apply H. cbv. lia.
Qed.

(** The copying branch.  When the [switch] leaves a code that is not
    negative, the call returns that code and copies the whole temporary
    union over the first eight bytes of [*out]: the bytes past the member
    the selector stands for (seven after a bool or a byte, six after a
    u16, four after a u32) are zero, and the bytes of [*out] past the
    eighth are left as they were. *)
Theorem successful_read_overwrites_union
    s s' reg_addr bit_offset rc tmp out :
  read_switch reg_addr bit_offset tmp_zero s = Ok (rc, tmp) s' ->
  0 <= rc ->
  modbus_read_data reg_addr bit_offset out s
  = Ok (rc, tmp ++ drop SIZEOF_TMP out) s' /\
  recognised bit_offset /\
  length tmp = SIZEOF_TMP /\
  forall i, (member_size bit_offset <= i < SIZEOF_TMP)%nat -> tmp !! i = Some 0.
Proof.
  intros Hsw Hrc.
  destruct (read_switch_tmp _ _ _ _ _ _ Hsw Hrc) as (Hrec & Hlen & Hzero).
  repeat split; try assumption.
  unfold modbus_read_data, bind. rewrite Hsw.
  destruct (Z.ltb_spec rc 0) as [?|_]; [lia|].
  unfold ret. now rewrite memcpy_whole.
Qed.

(** C10.  A code that is not negative does not mean that [*out] was
    written.  Whenever the [switch] leaves a negative code (the selector
    is not recognised, or the driver read failed) while [errno] is not
    positive, the error branch turns the code into [-errno], which is not
    negative, and returns it without the [memcpy]: the caller sees
    success and [*out] is what it was, not the zero-padded value.  This is
    the overwriting of [rc] by [-errno] that also breaks C3. *)
Theorem nonnegative_return_without_copy
    s s' reg_addr bit_offset rc tmp out :
  read_switch reg_addr bit_offset tmp_zero s = Ok (rc, tmp) s' ->
  rc < 0 ->
  errno P (env s') <= 0 ->
  modbus_read_data reg_addr bit_offset out s
  = Ok (- errno P (env s'), out) s' /\
  0 <= - errno P (env s').
Proof.
  intros Hsw Hrc Herr. split; [|lia].
  unfold modbus_read_data, bind. rewrite Hsw.
  destruct (Z.ltb_spec rc 0) as [_|?]; [|lia].
  reflexivity.
Qed.

(** The packing loop on eight coil readings stored as 0 or 1. *)
Lemma pack_loop_coils (coils : list bool) :
  length coils = 8%nat ->
  exists b,
    pack_loop 8 0 (map Z.b2z coils) tmp_zero = b :: replicate 7 0 /\
    0 <= b < 256 /\
    (forall i, (i < 8)%nat -> Z.testbit b (Z.of_nat i) = nth i coils false) /\
    (coils = [true; false; true; false; false; false; false; false] -> b = 5).
Proof.
  intros H.
  do 8 (destruct coils as [|? coils]; [discriminate|]).
  destruct coils; [clear H|discriminate].
  repeat match goal with b : bool |- _ => destruct b end;
    (eexists; split; [vm_compute; reflexivity|]; split; [lia|]; split;
     [ intros i Hi; do 8 (destruct i as [|i]; [reflexivity|]); lia
     | intros E; first [discriminate E | reflexivity] ]).
Qed.

(** C1.  When the byte-read primitive of the driver succeeds with eight
    coil readings, [modbus_read_data] with the selector [TYPE_BYTE] writes
    a byte whose bit [i] is coil reading [i] (coil 0 in bit 0, coil 7 in
    bit 7), followed by seven zero bytes; the readings
    [1,0,1,0,0,0,0,0] give the byte 5. *)
Theorem byte_read_packs_coils s s' reg_addr rc (coils : list bool) out :
  length coils = 8%nat ->
  0 <= rc ->
  driver_read read_byte TYPE_BYTE reg_addr s = Ok (rc, map Z.b2z coils) s' ->
  exists b,
    modbus_read_data reg_addr TYPE_BYTE out s
    = Ok (rc, b :: replicate 7 0 ++ drop 8 out) s' /\
    0 <= b < 256 /\
    (forall i, (i < 8)%nat -> Z.testbit b (Z.of_nat i) = nth i coils false) /\
    (coils = [true; false; true; false; false; false; false; false] -> b = 5).
Proof.
  intros Hlen Hrc Hread.
  destruct (pack_loop_coils coils Hlen) as (b & Hpack & Hb & Hbits & Hfive).
  exists b. repeat split; try assumption; try apply Hb.
  unfold modbus_read_data, bind. rewrite read_switch_byte.
  unfold bind. rewrite Hread. cbv beta iota delta [ret].
  destruct (Z.ltb_spec rc 0) as [?|_]; [lia|].
  rewrite Hpack. reflexivity.
Qed.

End Reader.

(** ** The connection manager *)

(** Projections of updated states. *)
Ltac fields :=
  cbn [connection_interface connect_to modbus_io modbus_ctx conn_cb disconn_cb
       timeouts ios contexts next_handle env trace
       set_connection_interface set_connect_to set_modbus_io set_modbus_ctx
       set_conn_cb set_disconn_cb set_timeouts set_ios set_contexts
       set_next_handle set_env set_trace fired hung_up] in *.

(** Unfolding of the state-passing combinators. *)
Ltac monad :=
  unfold call_if_set, current_errno in *;
  unfold emit, alloc in *;
  unfold bind, get, modify, ret, raise in *;
  cbv beta iota in *.

(** Lookups in updated tables and membership in extended traces. *)
Ltac map_hyps :=
  repeat match goal with
    | H : ∅ !! _ = Some _ |- _ => rewrite lookup_empty in H; discriminate H
    | H : <[?k := _]> _ !! ?k = Some _ |- _ =>
        rewrite lookup_insert_eq in H; simplify_eq
    | H : <[_ := _]> _ !! _ = Some _ |- _ =>
        apply lookup_insert_Some in H as [[? ?]|[? H]]; simplify_eq
    | H : delete _ _ !! _ = Some _ |- _ =>
        apply lookup_delete_Some in H as [? H]
    | H : _ ∈ [] |- _ => apply elem_of_nil in H; destruct H
    | H : _ ∈ _ ++ _ |- _ => apply elem_of_app in H as [H|H]
    | H : _ ∈ [_] |- _ => apply list_elem_of_singleton in H; simplify_eq
    | H : callback_argument _ _ |- _ => destruct H as [? [H|H]]
    end.

(** Use of the invariant at the state before the step. *)
Ltac use_inv Htimers Hios Htrace :=
  repeat match goal with
    | H : timeouts _ !! _ = Some _ |- _ =>
        destruct (Htimers _ _ H) as [? ?]; clear H
    | H : ios _ !! _ = Some _ |- _ =>
        let H1 := fresh in let H2 := fresh in let H3 := fresh in
        destruct (Hios _ _ H) as (H1 & H2 & H3); clear H
    end;
  cbn [timeout_data expiry io_fd disconnect_data] in *;
  first
    [ done
    | congruence
    | exfalso; congruence
    | apply Htrace; eexists; eauto
    | eauto ].

Section Manager.

Context {P : platform}.
Implicit Types (s : state P).

Lemma not_in_own_difference (h : handle) (X : gset handle) :
  h ∈ X ∖ {[h]} -> False.
Proof. rewrite elem_of_difference, elem_of_singleton. tauto. Qed.

Lemma stop_before_start (w : world P) :
  modbus_stop (initial w) = Ok tt (initial w).
Proof. reflexivity. Qed.

(** [modbus_stop] itself calls no callback and no read primitive. *)
Lemma stop_calls_no_callback s s' :
  modbus_stop s = Ok tt s' -> trace s' = trace s.
Proof.
  unfold modbus_stop, l_timeout_remove, l_io_destroy, driver_destroy, driver,
    valid_ctx.
  monad. intros H.
  repeat case_match; simplify_eq; fields; reflexivity.
Qed.

(** [modbus_start] does not depend on its [user_data]. *)
Lemma start_ignores_user_data s url slave_id ccb dcb ud ud' :
  modbus_start url slave_id ccb dcb ud s
  = modbus_start url slave_id ccb dcb ud' s.
Proof. reflexivity. Qed.

(** C4.  [modbus_stop] releases the objects its three handle variables
    point to but leaves the variables as they are.  A second call
    therefore hands a released object back to its library: after any call
    that found a handle variable set, the next call is a use after
    free. *)
Theorem second_stop_uses_released_object s s' :
  modbus_stop s = Ok tt s' ->
  connect_to s <> None \/ modbus_io s <> None \/ modbus_ctx s <> None ->
  modbus_stop s' = Fault UseAfterFree.
Proof.
  intros Hstop Hset.
  unfold modbus_stop, l_timeout_remove, l_io_destroy, driver_destroy, driver,
    valid_ctx in *.
  monad.
  repeat case_match; simplify_eq; fields.
  all: try reflexivity.
  all: exfalso; try (destruct Hset as [?|[?|?]]; congruence).
  all: repeat match goal with
         | H1 : ?x = Some ?a, H2 : ?x = Some ?b |- _ =>
             rewrite H1 in H2; injection H2 as <-
         end.
  all: try match goal with
         | H : delete ?h _ !! ?h = Some _ |- _ =>
             rewrite lookup_delete_eq in H; discriminate H
         | H : ?h ∈ _ ∖ {[ ?h ]} |- _ =>
             exact (not_in_own_difference _ _ H)
         end.
Qed.

(** C8.  When [modbus_connect] fails inside [attempt_connect], the timeout
    the callback was called with is armed again for 5 seconds; no
    callback is invoked (the trace is what it was) and nothing else of
    the connection state changes: the handle variables, the callbacks,
    the watches, the contexts and the other timeouts are as before. *)
Theorem failed_connect_rearms_timer s s1 h t ud rc :
  timeouts s !! h = Some t ->
  modbus_connect (modbus_ctx s) s = Ok rc s1 ->
  rc < 0 ->
  exists s',
    attempt_connect (Some h) ud s = Ok tt s' /\
    timeouts s' = <[h := {| expiry := Some 5000;
                            timeout_data := timeout_data t |}]> (timeouts s) /\
    trace s' = trace s /\
    connection_interface s' = connection_interface s /\
    connect_to s' = connect_to s /\
    modbus_io s' = modbus_io s /\
    modbus_ctx s' = modbus_ctx s /\
    conn_cb s' = conn_cb s /\
    disconn_cb s' = disconn_cb s /\
    ios s' = ios s /\
    contexts s' = contexts s.
Proof.
  intros Ht Hconn Hrc.
  unfold attempt_connect, l_timeout_modify. monad.
  rewrite Hconn.
  destruct (Z.ltb_spec rc 0) as [_|?]; [|lia].
  unfold modbus_connect, valid_ctx in Hconn. monad.
  repeat case_match; simplify_eq; fields.
  all: try (exfalso; congruence).
  all: try match goal with
         | H : (0 <? RECONNECT_TIMEOUT) = false |- _ => discriminate H
         end.
  all: try match goal with
         | H1 : ?x !! ?k = Some ?a, H2 : ?x !! ?k = Some ?b |- _ =>
             rewrite H1 in H2; injection H2 as <-
         end.
  all: eexists; split; [reflexivity|]; fields;
    repeat split; first [reflexivity | congruence].
Qed.

(** C6.  When [modbus_set_slave] fails in [modbus_start], the call
    returns [-errno] at once, without creating the timeout; but the
    context that [create] made just before is neither destroyed nor
    forgotten: [modbus_ctx] points to it and it is still allocated. *)
Theorem failed_set_slave_leaves_context
    s url slave_id ccb dcb ud table w1 rc w2 :
  selected_table url = Some table ->
  create table url (env s) = (true, w1) ->
  ext_set_slave P (Some (next_handle s)) slave_id w1 = (rc, w2) ->
  rc < 0 ->
  exists s',
    modbus_start url slave_id ccb dcb ud s = Ok (- errno P w2) s' /\
    modbus_ctx s' = Some (next_handle s) /\
    next_handle s ∈ contexts s' /\
    timeouts s' = timeouts s /\
    connect_to s' = connect_to s.
Proof.
  intros Hsel Hcreate Hslave Hrc.
  unfold modbus_start. rewrite Hsel.
  unfold driver_create, driver, modbus_set_slave, valid_ctx. monad. fields.
  rewrite Hcreate. fields.
  rewrite decide_True by (apply elem_of_union_l, elem_of_singleton; reflexivity).
  fields. rewrite Hslave. cbv beta iota.
  destruct (Z.ltb_spec rc 0) as [_|?]; [|lia].
  eexists. split; [reflexivity|]. fields.
  repeat split; try reflexivity.
  apply elem_of_union_l, elem_of_singleton. reflexivity.
Qed.

(** *** The session invariant *)

Lemma start_establishes (w : world P) url slave_id ccb dcb ud rc s0 :
  modbus_start url slave_id ccb dcb ud (initial w) = Ok rc s0 ->
  session_inv s0.
Proof.
  unfold modbus_start, driver_create, driver, modbus_set_slave, valid_ctx,
    l_timeout_create_ms.
  monad.
  intros H.
  repeat case_match; simplify_eq; fields.
  all: unfold session_inv; fields.
  all: cbn [initial timeouts ios trace connect_to] in *.
  all: repeat split; intros; map_hyps; fields; cbn [trace initial] in *; map_hyps; try done.
Qed.

Lemma attempt_connect_preserves s s' h t ms :
  session_inv s ->
  timeouts s !! h = Some t ->
  expiry t = Some ms ->
  attempt_connect (Some h) (timeout_data t) (fired h t s) = Ok tt s' ->
  session_inv s'.
Proof.
  intros (Htimers & Hios & Htrace) Ht Hms.
  assert (Hnone : forall h' i, ios s !! h' = Some i -> False).
  { intros h' i Hi. destruct (Hios _ _ Hi) as (_ & _ & Hoff).
    specialize (Hoff _ _ Ht). congruence. }
  destruct (Htimers _ _ Ht) as [Hto Hdata].
  unfold attempt_connect, modbus_connect, modbus_get_socket, valid_ctx,
    l_timeout_modify, l_io_new, l_io_set_disconnect_handler.
  monad.
  intros H.
  repeat case_match; simplify_eq; fields.
  all: unfold session_inv; fields.
  all: repeat split; intros; map_hyps; fields; map_hyps; try done.
  all: try (exfalso; eapply Hnone; eassumption).
  all: try (use_inv Htimers Hios Htrace; fail).
Qed.

Lemma on_disconnected_preserves s s' h i ud :
  session_inv s ->
  ios s !! h = Some i ->
  disconnect_data i = Some ud ->
  on_disconnected (Some h) ud (hung_up h i s) = Ok tt s' ->
  session_inv s'.
Proof.
  intros (Htimers & Hios & Htrace) Hi Hud.
  destruct (Hios _ _ Hi) as (Hio & Hnull & Hoff).
  apply Hnull in Hud. subst ud.
  assert (Hone : forall h' i', ios s !! h' = Some i' -> h' = h).
  { intros h' i' Hi'. destruct (Hios _ _ Hi') as (Hio' & _). congruence. }
  unfold on_disconnected, modbus_close, valid_ctx, l_io_destroy,
    l_timeout_modify.
  monad.
  intros H.
  repeat case_match; simplify_eq; fields.
  all: unfold session_inv; fields.
  all: repeat split; intros; map_hyps; fields; map_hyps; try done.
  all: try match goal with
         | H : ios _ !! ?k = Some _, N : ?k' <> ?k |- _ =>
             exfalso; apply N; symmetry; exact (Hone _ _ H)
         | H : ios _ !! ?k = Some _, N : ?k <> ?k' |- _ =>
             exfalso; apply N; exact (Hone _ _ H)
         end.
  all: try (use_inv Htimers Hios Htrace; fail).
Qed.

Lemma modbus_stop_preserves s s' :
  session_inv s ->
  modbus_stop s = Ok tt s' ->
  session_inv s'.
Proof.
  intros (Htimers & Hios & Htrace).
  unfold modbus_stop, l_timeout_remove, l_io_destroy, driver_destroy, driver,
    valid_ctx.
  monad.
  intros H.
  repeat case_match; simplify_eq; fields.
  all: unfold session_inv; fields.
  all: repeat split; intros; map_hyps; fields; map_hyps; try done.
  all: try (use_inv Htimers Hios Htrace; fail).
Qed.


Lemma loop_step_preserves s s' :
  session_inv s -> loop_step s s' -> session_inv s'.
Proof.
  intros Hinv Hstep. destruct Hstep.
  - eapply attempt_connect_preserves; eassumption.
  - eapply on_disconnected_preserves; eassumption.
  - eapply modbus_stop_preserves; eassumption.
Qed.

Lemma session_inv_holds s : session_state s -> session_inv s.
Proof.
  intros (w & url & slave_id & ccb & dcb & ud & rc & s0 & Hstart & Hsteps).
  apply start_establishes in Hstart.
  induction Hsteps as [|s1 s2 s3 Hstep _ IH]; [assumption|].
  apply IH. eapply loop_step_preserves; eassumption.
Qed.


(** C5.  Whatever [user_data] was given to [modbus_start], every call of
    the connected and of the disconnected callback in the session gets
    NULL: [modbus_start] does not keep its [user_data] and registers
    both [attempt_connect] and [on_disconnected] with NULL. *)
Theorem callbacks_get_null s ud :
  session_state s -> callback_argument ud s -> ud = NULL.
Proof.
  intros Hs Hud. destruct (session_inv_holds s Hs) as (_ & _ & Htrace).
  exact (Htrace ud Hud).
Qed.

End Manager.

(** ** The scenarios *)

Lemma started_is_session b : session_state (started b 5).
Proof.
  exists (0 : world (test_platform b 5)), "tcp://10.0.0.5:502"%string, 17,
    (Some 1%nat), (Some 2%nat), 42, 0, (started b 5).
  split; [destruct b; vm_compute; reflexivity | constructor].
Qed.

Lemma connected_step : loop_step (started true 5) connected.
Proof.
  apply (timeout_expires 2%nat first_timeout 1); vm_compute; reflexivity.
Qed.

Lemma connected_is_session : session_state connected.
Proof.
  destruct (started_is_session true)
    as (w & url & i & c & d & u & rc & s0 & H1 & H2).
  exists w, url, i, c, d, u, rc, s0. split; [exact H1|].
  eapply rtc_r; [exact H2 | exact connected_step].
Qed.

Lemma connected_reachable : reachable connected.
Proof.
  exists (0 : world (test_platform true 5)).
  apply (rtc_l _ _ (started true 5)); [|apply rtc_once].
  - apply (start_called "tcp://10.0.0.5:502" 17 (Some 1%nat) (Some 2%nat)
             42 0).
    vm_compute. reflexivity.
  - apply loop_steps. exact connected_step.
Qed.

Lemma dropped_step : loop_step connected dropped.
Proof.
  apply (watch_hangs_up 3%nat {| io_fd := 3; disconnect_data := Some NULL |}
           NULL); vm_compute; reflexivity.
Qed.

(** The user data 42 given to [modbus_start] is not what the two
    callbacks get; after the hang-up the timeout is armed for 5 seconds
    and no watch is left. *)
Example callbacks_of_the_scenario :
  trace connected = [Connected 1%nat NULL] /\
  trace dropped = [Connected 1%nat NULL; Disconnected 2%nat NULL] /\
  NULL <> 42 /\
  timeouts dropped !! 2%nat
  = Some {| expiry := Some 5000; timeout_data := NULL |} /\
  ios dropped = ∅ /\ modbus_io dropped = None.
Proof. repeat split; try discriminate; vm_compute; reflexivity. Qed.


(** A second [modbus_start] while connected arms a new timeout beside
    the watch: the sequences of C7 have to be those of one session. *)
Example second_start_arms_timer_beside_watch :
  reachable restarted /\ timer_armed restarted /\ watch_live restarted.
Proof.
  split; [|split].
  - destruct connected_reachable as [w Hw].
    exists w. eapply rtc_r; [exact Hw|].
    apply (start_called "tcp://10.0.0.5:502" 17 (Some 1%nat) (Some 2%nat)
             42 0).
    vm_compute. reflexivity.
  - exists 5%nat, first_timeout, 1. split; vm_compute; reflexivity.
  - exists 3%nat, {| io_fd := 3; disconnect_data := Some NULL |}.
    vm_compute. reflexivity.
Qed.


(** The connected callback of the scenario was called with NULL. *)
Lemma callbacks_get_null_witness :
  session_state connected /\ callback_argument NULL connected /\ NULL = NULL.
Proof.
  assert (H : callback_argument NULL connected).
  { exists 1%nat. left. vm_compute. apply list_elem_of_here. }
  split; [exact connected_is_session|]. split; [exact H|].
  exact (callbacks_get_null connected NULL connected_is_session H).
Defined.

(** A byte read of the coils 1,0,1,0,0,0,0,0 on the test platform. *)
Lemma byte_read_packs_coils_witness :
  exists b,
    modbus_read_data 0 TYPE_BYTE out9 (started true 5)
    = Ok (8, b :: replicate 7 0 ++ drop 8 out9)
         (after (driver_read read_byte TYPE_BYTE 0 (started true 5))
                (started true 5)) /\
    b = 5.
Proof.
  destruct (byte_read_packs_coils (started true 5)
              (after (driver_read read_byte TYPE_BYTE 0 (started true 5))
                     (started true 5))
              0 8 [true; false; true; false; false; false; false; false] out9)
    as (b & H & _ & _ & H5).
  - reflexivity.
  - lia.
  - vm_compute. reflexivity.
  - exists b. split; [exact H | exact (H5 eq_refl)].
Defined.

(** The selector 2 in a fresh process: [errno] is 0 and so is the return
    code. *)
Lemma unrecognised_selector_witness :
  ~ recognised 2 /\
  modbus_read_data 0 2 out9 (fresh true 5) = Ok (0, out9) (fresh true 5) /\
  0 <> - EINVAL.
Proof.
  assert (H : ~ recognised 2).
  { unfold recognised. rewrite !elem_of_cons, elem_of_nil.
    unfold TYPE_BOOL, TYPE_BYTE, TYPE_U16, TYPE_U32, TYPE_U64. lia. }
  split; [exact H|]. split; [|discriminate].
  exact (unrecognised_selector_returns_stale_errno (fresh true 5) 0 2 out9 H).
Defined.

(** A 16-bit read that times out on the test platform. *)
Lemma negative_return_leaves_out_witness :
  modbus_read_data 0 TYPE_U16 out9 (started true (-1))
  = Ok (- ETIMEDOUT, out9)
       (after (modbus_read_data 0 TYPE_U16 out9 (started true (-1)))
              (started true (-1))) /\
  - ETIMEDOUT < 0 /\ out9 = out9.
Proof.
  assert (H : modbus_read_data 0 TYPE_U16 out9 (started true (-1))
              = Ok (- ETIMEDOUT, out9)
                   (after (modbus_read_data 0 TYPE_U16 out9
                             (started true (-1)))
                          (started true (-1))))
    by (vm_compute; reflexivity).
  assert (Hneg : - ETIMEDOUT < 0) by (unfold ETIMEDOUT; lia).
  split; [exact H|]. split; [exact Hneg|].
  exact (negative_return_leaves_out _ _ _ _ _ _ _ H Hneg).
Defined.

(** The selector 2 in a fresh process, where [errno] is 0: the call
    returns 0 and the ten bytes of [*out] are still 9. *)
Lemma nonnegative_return_without_copy_witness :
  read_switch 0 2 tmp_zero (fresh true 5)
  = Ok (- EINVAL, tmp_zero) (fresh true 5) /\
  modbus_read_data 0 2 out9 (fresh true 5) = Ok (0, out9) (fresh true 5) /\
  0 <= 0.
Proof.
  assert (Hsw : read_switch 0 2 tmp_zero (fresh true 5)
                = Ok (- EINVAL, tmp_zero) (fresh true 5))
    by (vm_compute; reflexivity).
  split; [exact Hsw|].
  apply (nonnegative_return_without_copy (fresh true 5) (fresh true 5)
           0 2 (- EINVAL) tmp_zero out9 Hsw).
  - unfold EINVAL. lia.
  - vm_compute. discriminate.
Defined.

(** A 16-bit read of 0x1234 on the (little-endian) test platform. *)
Lemma successful_read_overwrites_union_witness :
  modbus_read_data 0 TYPE_U16 out9 (started true 4660)
  = Ok (1, [52; 18; 0; 0; 0; 0; 0; 0] ++ drop SIZEOF_TMP out9)
       (after (read_switch 0 TYPE_U16 tmp_zero (started true 4660))
              (started true 4660)).
Proof.
  apply (successful_read_overwrites_union (started true 4660)
           (after (read_switch 0 TYPE_U16 tmp_zero (started true 4660))
                  (started true 4660))
           0 TYPE_U16 1 [52; 18; 0; 0; 0; 0; 0; 0] out9).
  - vm_compute. reflexivity.
  - lia.
Defined.

(** [modbus_stop] twice after a successful [modbus_start]. *)
Lemma second_stop_uses_released_object_witness :
  modbus_stop (started true 5) = Ok tt stopped /\
  connect_to (started true 5) <> None /\
  modbus_stop stopped = Fault UseAfterFree.
Proof.
  assert (H : modbus_stop (started true 5) = Ok tt stopped)
    by (vm_compute; reflexivity).
  assert (Hset : connect_to (started true 5) <> None)
    by (vm_compute; discriminate).
  split; [exact H|]. split; [exact Hset|].
  exact (second_stop_uses_released_object _ _ H (or_introl Hset)).
Defined.

(** [modbus_start] with the slave identifier 1700, which
    [modbus_set_slave] rejects. *)
Lemma failed_set_slave_leaves_context_witness :
  exists s',
    modbus_start "tcp://10.0.0.5:502" 1700 (Some 1%nat) (Some 2%nat) 42
      (fresh true 5) = Ok (- EINVAL) s' /\
    modbus_ctx s' = Some 1%nat /\
    1%nat ∈ contexts s'.
Proof.
  destruct (failed_set_slave_leaves_context (fresh true 5)
              "tcp://10.0.0.5:502" 1700 (Some 1%nat) (Some 2%nat) 42
              (test_driver 5) 0 (-1) EINVAL)
    as (s' & H1 & H2 & H3 & _).
  - vm_compute. reflexivity.
  - reflexivity.
  - reflexivity.
  - lia.
  - exists s'. split; [exact H1|]. split; [exact H2 | exact H3].
Defined.

(** The first connection attempt of the scenario when the slave refuses
    the connection. *)
Lemma failed_connect_rearms_timer_witness :
  exists s',
    attempt_connect (Some 2%nat) NULL (expired false) = Ok tt s' /\
    timeouts s' !! 2%nat
    = Some {| expiry := Some 5000; timeout_data := NULL |} /\
    trace s' = [].
Proof.
  destruct (failed_connect_rearms_timer (expired false)
              (after (modbus_connect (modbus_ctx (expired false))
                        (expired false))
                     (expired false))
              2%nat spent_timeout NULL (-1))
    as (s' & H1 & H2 & H3 & _).
  - vm_compute. reflexivity.
  - vm_compute. reflexivity.
  - lia.
  - exists s'. split; [exact H1|]. split.
    + rewrite H2. apply lookup_insert_eq.
    + rewrite H3. vm_compute. reflexivity.
Defined.

(** ** More on the register reader *)

Section ReaderMore.

Context {P : platform}.
Implicit Types (s : state P) (out tmp : list Z).

(** A driver read changes the outside world and records itself in the
    trace; it needs a selected driver and a context that is not freed. *)
Lemma driver_read_frame {A}
    (prim : modbus_driver (world P) -> option handle -> Z -> world P ->
            Z * A * world P)
    s s' bit_offset reg_addr x :
  driver_read prim bit_offset reg_addr s = Ok x s' ->
  s' = set_env (env s') (set_trace (trace s ++ [Read bit_offset reg_addr]) s).
Proof.
  unfold driver_read, driver, valid_ctx. monad. intros H.
  repeat case_match; simplify_eq; fields; reflexivity.
Qed.

Lemma driver_read_null {A}
    (prim : modbus_driver (world P) -> option handle -> Z -> world P ->
            Z * A * world P)
    s bit_offset reg_addr :
  connection_interface s = None ->
  driver_read prim bit_offset reg_addr s = Fault NullCall.
Proof.
  intros H. unfold driver_read, driver. monad. rewrite H. reflexivity.
Qed.

Lemma driver_read_dangling {A}
    (prim : modbus_driver (world P) -> option handle -> Z -> world P ->
            Z * A * world P)
    s bit_offset reg_addr d c :
  connection_interface s = Some d ->
  modbus_ctx s = Some c ->
  c ∉ contexts s ->
  driver_read prim bit_offset reg_addr s = Fault UseAfterFree.
Proof.
  intros Hd Hc Hfree. unfold driver_read, driver, valid_ctx. monad.
  rewrite Hd, Hc. rewrite decide_False by exact Hfree. reflexivity.
Qed.

Lemma recognised_cases bit_offset :
  recognised bit_offset ->
  bit_offset = TYPE_BOOL \/ bit_offset = TYPE_BYTE \/ bit_offset = TYPE_U16 \/
  bit_offset = TYPE_U32 \/ bit_offset = TYPE_U64.
Proof.
  unfold recognised. rewrite !elem_of_cons, elem_of_nil. tauto.
Qed.

(** The switch on a recognised selector is one driver read. *)
Lemma read_switch_frame s s' reg_addr bit_offset tmp x :
  recognised bit_offset ->
  read_switch reg_addr bit_offset tmp s = Ok x s' ->
  s' = set_env (env s') (set_trace (trace s ++ [Read bit_offset reg_addr]) s).
Proof.
  intros Hrec Hsw.
  destruct (recognised_cases _ Hrec) as [->|[->|[->|[->| ->]]]];
    [rewrite read_switch_bool in Hsw | rewrite read_switch_byte in Hsw
    | rewrite read_switch_u16 in Hsw | rewrite read_switch_u32 in Hsw
    | rewrite read_switch_u64 in Hsw];
    unfold bind in Hsw;
    match type of Hsw with
    | context [driver_read ?prim ?b ?r ?s] =>
        destruct (driver_read prim b r s) as [[rc0 v] s1|f] eqn:Hread;
          [|discriminate]
    end;
    cbv beta iota delta [ret] in Hsw;
    assert (s1 = s') by congruence; subst s1;
    exact (driver_read_frame _ _ _ _ _ _ Hread).
Qed.

Lemma read_switch_fault s reg_addr bit_offset tmp f :
  recognised bit_offset ->
  (forall A (prim : modbus_driver (world P) -> option handle -> Z ->
                    world P -> Z * A * world P),
     driver_read prim bit_offset reg_addr s = Fault f) ->
  read_switch reg_addr bit_offset tmp s = Fault f.
Proof.
  intros Hrec Hread.
  destruct (recognised_cases _ Hrec) as [->|[->|[->|[->| ->]]]];
    [rewrite read_switch_bool | rewrite read_switch_byte
    | rewrite read_switch_u16 | rewrite read_switch_u32
    | rewrite read_switch_u64];
    unfold bind; rewrite Hread; reflexivity.
Qed.

(** A call that returns changes nothing but the outside world and the
    trace, where a recognised selector leaves one read. *)
Lemma modbus_read_data_frame s s' reg_addr bit_offset out r :
  modbus_read_data reg_addr bit_offset out s = Ok r s' ->
  s' = set_env (env s')
         (set_trace
            (trace s ++ (if decide (recognised bit_offset)
                         then [Read bit_offset reg_addr] else []))
            s).
Proof.
  intros H. destruct (decide (recognised bit_offset)) as [Hrec|Hrec].
  - unfold modbus_read_data, bind in H.
    destruct (read_switch reg_addr bit_offset tmp_zero s)
      as [[rc tmp] s1|f] eqn:Hsw; [|discriminate].
    apply read_switch_frame in Hsw; [|exact Hrec].
    assert (s1 = s') as ->.
    { destruct (rc <? 0); cbv beta iota delta [bind current_errno get ret] in H;
        congruence. }
    exact Hsw.
  - unfold modbus_read_data, bind in H.
    rewrite read_switch_unrecognised in H by exact Hrec.
    change (Ok (- errno P (env s), out) s = Ok r s') in H.
    assert (s' = s) as -> by congruence.
    rewrite app_nil_r. destruct s; reflexivity.
Qed.

(** X1.  A read that returns never touches the connection: the driver
    table, the three handle variables, the callbacks and every timeout,
    watch and context are as before.  The trace gets one read event for a
    recognised selector and nothing otherwise. *)
Theorem read_keeps_connection_state s s' reg_addr bit_offset out r :
  modbus_read_data reg_addr bit_offset out s = Ok r s' ->
  connection_interface s' = connection_interface s /\
  connect_to s' = connect_to s /\
  modbus_io s' = modbus_io s /\
  modbus_ctx s' = modbus_ctx s /\
  conn_cb s' = conn_cb s /\
  disconn_cb s' = disconn_cb s /\
  timeouts s' = timeouts s /\
  ios s' = ios s /\
  contexts s' = contexts s /\
  next_handle s' = next_handle s /\
  trace s' = trace s ++ (if decide (recognised bit_offset)
                         then [Read bit_offset reg_addr] else []).
Proof.
  intros H. rewrite (modbus_read_data_frame _ _ _ _ _ _ H). fields.
  repeat split; reflexivity.
Qed.

(** X2.  Before [modbus_start] has selected a driver the table
    [connection_interface] is zero: a read with a recognised selector
    calls through a NULL function pointer. *)
Theorem read_before_start_calls_null s reg_addr bit_offset out :
  connection_interface s = None ->
  recognised bit_offset ->
  modbus_read_data reg_addr bit_offset out s = Fault NullCall.
Proof.
  intros Hnull Hrec. unfold modbus_read_data, bind.
  rewrite (read_switch_fault s reg_addr bit_offset tmp_zero NullCall Hrec);
    [reflexivity|].
  intros A prim. apply driver_read_null. exact Hnull.
Qed.

Lemma stop_leaves_ctx_dangling s s' c :
  modbus_stop s = Ok tt s' ->
  modbus_ctx s = Some c ->
  modbus_ctx s' = Some c /\ (c ∉ contexts s') /\
  is_Some (connection_interface s').
Proof.
  unfold modbus_stop, l_timeout_remove, l_io_destroy, driver_destroy, driver,
    valid_ctx.
  monad. intros H Hc.
  repeat case_match; simplify_eq; fields.
  all: try congruence.
  all: try match goal with
       | H1 : modbus_ctx ?s = Some ?a, H2 : modbus_ctx ?s = Some ?b |- _ =>
           rewrite H1 in H2; injection H2 as <-
       end.
  all: repeat split; eauto;
    rewrite elem_of_difference, elem_of_singleton; tauto.
Qed.

(** X3.  [modbus_stop] frees the context and leaves [modbus_ctx]
    pointing to it: a read with a recognised selector after the stop
    hands the freed context to the driver. *)
Theorem read_after_stop_uses_freed_context s s' reg_addr bit_offset out :
  modbus_stop s = Ok tt s' ->
  modbus_ctx s <> None ->
  recognised bit_offset ->
  modbus_read_data reg_addr bit_offset out s' = Fault UseAfterFree.
Proof.
  intros Hstop Hctx Hrec.
  destruct (modbus_ctx s) as [c|] eqn:Hc; [clear Hctx|congruence].
  destruct (stop_leaves_ctx_dangling s s' c Hstop Hc) as (Hc' & Hfree & [d Hd]).
  unfold modbus_read_data, bind.
  rewrite (read_switch_fault s' reg_addr bit_offset tmp_zero UseAfterFree Hrec);
    [reflexivity|].
  intros A prim. exact (driver_read_dangling prim s' _ _ d c Hd Hc' Hfree).
Qed.

Lemma le_value_le_bytes n v : le_value (le_bytes n v) = v mod 256 ^ Z.of_nat n.
Proof.
  revert v. induction n as [|n IH]; intros v.
  - cbn. now rewrite Z.mod_1_r.
  - cbn [le_bytes le_value]. rewrite IH. unfold uint8.
    rewrite Nat2Z.inj_succ, Z.pow_succ_r by lia.
    rewrite Z.rem_mul_r by lia. reflexivity.
Qed.

Lemma object_value_bytes be n v :
  object_value be (object_bytes be n v) = v mod 256 ^ Z.of_nat n.
Proof.
  unfold object_value, object_bytes. destruct be.
  - rewrite rev_involutive. apply le_value_le_bytes.
  - apply le_value_le_bytes.
Qed.

Lemma pack_loop_bits n i byte_tmp v tl j :
  0 <= j < 8 ->
  Z.testbit (val_byte (pack_loop n i byte_tmp (v :: tl))) j
  = Z.testbit v j || shifted_or_bit n i byte_tmp j.
Proof.
  intros Hj. revert i v. induction n as [|n IH]; intros i v.
  - cbn. now rewrite orb_false_r.
  - cbn [pack_loop shifted_or_bit]. unfold union_store.
    cbn [length drop app]. rewrite IH.
    unfold uint8, val_byte. cbn [nth].
    change 256 with (2 ^ 8).
    rewrite Z.mod_pow2_bits_low by lia.
    rewrite Z.lor_spec, Z.shiftl_spec by lia.
    now rewrite orb_assoc.
Qed.

(** X4.  A 16, 32 or 64-bit read that succeeds stores the value of the
    driver in [*out]: the first two, four or eight bytes of [*out], read
    back in the byte order of the platform, are that value (modulo the
    size of the member). *)
Theorem integer_read_round_trip s s' reg_addr bit_offset prim rc v out :
  (bit_offset, prim) ∈ [(TYPE_U16, @read_u16 (world P));
                        (TYPE_U32, @read_u32 (world P));
                        (TYPE_U64, @read_u64 (world P))] ->
  0 <= rc ->
  driver_read prim bit_offset reg_addr s = Ok (rc, v) s' ->
  exists out',
    modbus_read_data reg_addr bit_offset out s = Ok (rc, out') s' /\
    object_value (big_endian P) (take (member_size bit_offset) out')
    = v mod 2 ^ bit_offset.
Proof.
  intros Hin Hrc Hread.
  rewrite !elem_of_cons, elem_of_nil in Hin.
  destruct Hin as [[= -> ->]|[[= -> ->]|[[= -> ->]|[]]]].
  - eexists. split.
    + unfold modbus_read_data, bind. rewrite read_switch_u16.
      unfold bind. rewrite Hread. cbv beta iota delta [ret].
      destruct (Z.ltb_spec rc 0) as [?|_]; [lia|]. reflexivity.
    + rewrite memcpy_whole
        by (apply (union_store_zero (object_bytes _ 2 v));
            rewrite length_object_bytes; cbv; lia).
      unfold union_store. rewrite <- !app_assoc.
      change (member_size TYPE_U16) with 2%nat.
      rewrite <- (length_object_bytes (big_endian P) 2 v) at 1.
      rewrite take_app_length. apply object_value_bytes.
  - eexists. split.
    + unfold modbus_read_data, bind. rewrite read_switch_u32.
      unfold bind. rewrite Hread. cbv beta iota delta [ret].
      destruct (Z.ltb_spec rc 0) as [?|_]; [lia|]. reflexivity.
    + rewrite memcpy_whole
        by (apply (union_store_zero (object_bytes _ 4 v));
            rewrite length_object_bytes; cbv; lia).
      unfold union_store. rewrite <- !app_assoc.
      change (member_size TYPE_U32) with 4%nat.
      rewrite <- (length_object_bytes (big_endian P) 4 v) at 1.
      rewrite take_app_length. apply object_value_bytes.
  - eexists. split.
    + unfold modbus_read_data, bind. rewrite read_switch_u64.
      unfold bind. rewrite Hread. cbv beta iota delta [ret].
      destruct (Z.ltb_spec rc 0) as [?|_]; [lia|]. reflexivity.
    + rewrite memcpy_whole
        by (apply (union_store_zero (object_bytes _ 8 v));
            rewrite length_object_bytes; cbv; lia).
      unfold union_store. rewrite <- !app_assoc.
      change (member_size TYPE_U64) with 8%nat.
      rewrite <- (length_object_bytes (big_endian P) 8 v) at 1.
      rewrite take_app_length. apply object_value_bytes.
Qed.

(** X5.  Whatever the byte-read primitive leaves in the buffer, a byte
    read that succeeds writes the bitwise or of [byte_tmp[i] << i] over
    the eight indices, cut to eight bits: bit [j] of the byte is set
    exactly when bit [j - i] of some [byte_tmp[i]] is.  A reading that is
    not 0 or 1 therefore reaches bits above its own. *)
Theorem byte_read_packs_any_bytes s s' reg_addr rc byte_tmp out :
  0 <= rc ->
  driver_read read_byte TYPE_BYTE reg_addr s = Ok (rc, byte_tmp) s' ->
  exists b,
    modbus_read_data reg_addr TYPE_BYTE out s
    = Ok (rc, b :: replicate 7 0 ++ drop 8 out) s' /\
    0 <= b < 256 /\
    forall j, 0 <= j < 8 -> Z.testbit b j = shifted_or_bit 8 0 byte_tmp j.
Proof.
  intros Hrc Hread.
  destruct (pack_loop_first_byte 8 0 byte_tmp 0 (replicate 7 0))
    as (b & Hpack & Hb); [lia|].
  exists b. split; [|split; [exact Hb|]].
  - unfold modbus_read_data, bind. rewrite read_switch_byte.
    unfold bind. rewrite Hread. cbv beta iota delta [ret].
    destruct (Z.ltb_spec rc 0) as [?|_]; [lia|].
    change tmp_zero with (0 :: replicate 7 0). rewrite Hpack. reflexivity.
  - intros j Hj.
    pose proof (pack_loop_bits 8 0 byte_tmp 0 (replicate 7 0) j Hj) as Hbits.
    rewrite Hpack in Hbits. cbn [val_byte nth] in Hbits.
    rewrite Hbits, Z.bits_0. reflexivity.
Qed.

End ReaderMore.

(** Two hypotheses give the same variable or table entry a value. *)
Ltac same_values :=
  repeat match goal with
    | H1 : ?x = Some ?a, H2 : ?x = Some ?b |- _ =>
        rewrite H1 in H2; injection H2 as <-
    end.

(** ** More on the connection manager: one call *)

Section ManagerCalls.

Context {P : platform}.
Implicit Types (s : state P).

Lemma selected_table_unknown url :
  ~ begins_with "tcp://" url -> ~ begins_with "serial://" url ->
  selected_table (P:=P) url = None.
Proof.
  intros Ht Hr. unfold selected_table, parse_url.
  destruct (Z.eqb_spec (strncmp url TCP_PREFIX TCP_PREFIX_SIZE) 0) as [E|_].
  { apply tcp_prefix_test in E. contradiction. }
  destruct (Z.eqb_spec (strncmp url RTU_PREFIX RTU_PREFIX_SIZE) 0) as [E|_].
  { apply rtu_prefix_test in E. contradiction. }
  reflexivity.
Qed.

(** X6.  On a URL that begins with neither prefix [modbus_start] returns
    -EINVAL and changes nothing: no driver is selected and no context or
    timeout is made. *)
Theorem start_rejects_unknown_scheme s url slave_id ccb dcb ud :
  ~ begins_with "tcp://" url ->
  ~ begins_with "serial://" url ->
  modbus_start url slave_id ccb dcb ud s = Ok (- EINVAL) s.
Proof.
  intros Ht Hr. unfold modbus_start.
  rewrite (selected_table_unknown url Ht Hr). reflexivity.
Qed.

(** X7.  When the driver cannot create the context, [modbus_start]
    returns [-errno] with [modbus_ctx] set to NULL and the driver table
    already selected; it makes no timeout, stores no callback and
    releases nothing. *)
Theorem start_create_failure s url slave_id ccb dcb ud
    (table : modbus_driver (world P)) w1 :
  selected_table url = Some table ->
  create table url (env s) = (false, w1) ->
  exists s',
    modbus_start url slave_id ccb dcb ud s = Ok (- errno P w1) s' /\
    modbus_ctx s' = None /\
    connection_interface s' = Some table /\
    connect_to s' = connect_to s /\
    modbus_io s' = modbus_io s /\
    conn_cb s' = conn_cb s /\
    disconn_cb s' = disconn_cb s /\
    timeouts s' = timeouts s /\
    ios s' = ios s /\
    contexts s' = contexts s /\
    trace s' = trace s.
Proof.
  intros Hsel Hcreate. unfold modbus_start. rewrite Hsel.
  unfold driver_create, driver. monad. fields. rewrite Hcreate.
  cbv beta iota. fields.
  eexists. split; [reflexivity|]. fields. repeat split; reflexivity.
Qed.

(** X8.  When the context is created and the slave identifier accepted,
    [modbus_start] returns 0 with the context in [modbus_ctx], the two
    callbacks stored, and one new timeout in [connect_to], armed for
    1 ms with NULL as user data.  It does not connect: the outside world
    is what [modbus_set_slave] left, no callback is called and no watch
    is made. *)
Theorem start_success s url slave_id ccb dcb ud
    (table : modbus_driver (world P)) w1 rc w2 :
  selected_table url = Some table ->
  create table url (env s) = (true, w1) ->
  ext_set_slave P (Some (next_handle s)) slave_id w1 = (rc, w2) ->
  0 <= rc ->
  l_timeout_create_succeeds P w2 = true ->
  exists s',
    modbus_start url slave_id ccb dcb ud s = Ok 0 s' /\
    connection_interface s' = Some table /\
    modbus_ctx s' = Some (next_handle s) /\
    contexts s' = {[next_handle s]} ∪ contexts s /\
    connect_to s' = Some (S (next_handle s)) /\
    timeouts s' = <[S (next_handle s) :=
                      {| expiry := Some 1; timeout_data := NULL |}]>
                    (timeouts s) /\
    conn_cb s' = ccb /\
    disconn_cb s' = dcb /\
    modbus_io s' = modbus_io s /\
    ios s' = ios s /\
    env s' = w2 /\
    trace s' = trace s.
Proof.
  intros Hsel Hcreate Hslave Hrc Hto.
  unfold modbus_start. rewrite Hsel.
  unfold driver_create, driver, modbus_set_slave, valid_ctx,
    l_timeout_create_ms.
  monad. fields. rewrite Hcreate. cbv beta iota. fields.
  rewrite decide_True by (apply elem_of_union_l, elem_of_singleton; reflexivity).
  cbv beta iota. fields. rewrite Hslave. cbv beta iota.
  destruct (Z.ltb_spec rc 0) as [?|_]; [lia|].
  fields. rewrite Hto. cbv beta iota. fields.
  eexists. split; [reflexivity|]. fields. repeat split; reflexivity.
Qed.

(** X9.  The result of [l_timeout_create_ms] is not checked: when the
    timeout cannot be created [modbus_start] still returns 0, with
    [connect_to] NULL and no timeout, so that no connection attempt will
    follow. *)
Theorem start_without_timeout s url slave_id ccb dcb ud
    (table : modbus_driver (world P)) w1 rc w2 :
  selected_table url = Some table ->
  create table url (env s) = (true, w1) ->
  ext_set_slave P (Some (next_handle s)) slave_id w1 = (rc, w2) ->
  0 <= rc ->
  l_timeout_create_succeeds P w2 = false ->
  exists s',
    modbus_start url slave_id ccb dcb ud s = Ok 0 s' /\
    connect_to s' = None /\
    timeouts s' = timeouts s /\
    modbus_ctx s' = Some (next_handle s) /\
    trace s' = trace s.
Proof.
  intros Hsel Hcreate Hslave Hrc Hto.
  unfold modbus_start. rewrite Hsel.
  unfold driver_create, driver, modbus_set_slave, valid_ctx,
    l_timeout_create_ms.
  monad. fields. rewrite Hcreate. cbv beta iota. fields.
  rewrite decide_True by (apply elem_of_union_l, elem_of_singleton; reflexivity).
  cbv beta iota. fields. rewrite Hslave. cbv beta iota.
  destruct (Z.ltb_spec rc 0) as [?|_]; [lia|].
  fields. rewrite Hto. cbv beta iota. fields.
  eexists. split; [reflexivity|]. fields. repeat split; reflexivity.
Qed.

(** What a successful [modbus_connect] leaves: the state with another
    outside world, and a context pointer that may be used again. *)
Lemma modbus_connect_ok s s1 ctx rc :
  modbus_connect ctx s = Ok rc s1 ->
  s1 = set_env (env s1) s /\
  valid_ctx ctx s1 = Ok tt s1.
Proof.
  unfold modbus_connect, valid_ctx. monad. intros H.
  repeat case_match; simplify_eq; fields; try contradiction;
    split; reflexivity.
Qed.

(** X10.  When [modbus_connect] succeeds and the watch can be made,
    [attempt_connect] leaves in [modbus_io] a new watch on the socket of
    the context, with the disconnect handler set and NULL as its user
    data; it calls the connected callback once, if there is one, with
    the user data it was called with, and does not touch the timeout. *)
Theorem connect_success_registers_watch s s1 to ud rc fd :
  modbus_connect (modbus_ctx s) s = Ok rc s1 ->
  0 <= rc ->
  ext_get_socket P (modbus_ctx s) (env s1) = fd ->
  0 <= fd ->
  l_io_new_succeeds P fd (env s1) = true ->
  exists s',
    attempt_connect to ud s = Ok tt s' /\
    modbus_io s' = Some (next_handle s) /\
    ios s' = <[next_handle s :=
                 {| io_fd := fd; disconnect_data := Some NULL |}]> (ios s) /\
    trace s' = trace s ++ match conn_cb s with
                          | Some f => [Connected f ud]
                          | None => []
                          end /\
    timeouts s' = timeouts s /\
    connect_to s' = connect_to s /\
    modbus_ctx s' = modbus_ctx s /\
    contexts s' = contexts s.
Proof.
  intros Hconn Hrc Hfd Hpos Hnew.
  unfold attempt_connect, modbus_connect, modbus_get_socket, valid_ctx,
    l_io_new, l_io_set_disconnect_handler in *.
  monad.
  repeat case_match; simplify_eq; fields.
  all: try lia; try congruence; try contradiction.
  all: try match goal with
         | H : <[?k := _]> _ !! ?k = None |- _ =>
             rewrite lookup_insert_eq in H; discriminate H
         | H : <[?k := _]> _ !! ?k = Some _ |- _ =>
             rewrite lookup_insert_eq in H; injection H as <-
         end.
  all: eexists; (split; [reflexivity|]); fields;
    rewrite ?app_nil_r, ?insert_insert_eq;
    repeat split; first [reflexivity | congruence].
Qed.

(** X11.  When [modbus_connect] succeeds but no watch can be made (the
    socket is negative or [l_io_new] fails), [attempt_connect] still
    calls the connected callback; [modbus_io] is NULL, no watch exists
    and the timeout is not armed again. *)
Theorem connect_success_without_watch s s1 to ud rc fd :
  modbus_connect (modbus_ctx s) s = Ok rc s1 ->
  0 <= rc ->
  ext_get_socket P (modbus_ctx s) (env s1) = fd ->
  fd < 0 \/ l_io_new_succeeds P fd (env s1) = false ->
  exists s',
    attempt_connect to ud s = Ok tt s' /\
    modbus_io s' = None /\
    ios s' = ios s /\
    trace s' = trace s ++ match conn_cb s with
                          | Some f => [Connected f ud]
                          | None => []
                          end /\
    timeouts s' = timeouts s /\
    connect_to s' = connect_to s.
Proof.
  intros Hconn Hrc Hfd Hnew.
  unfold attempt_connect, modbus_connect, modbus_get_socket, valid_ctx,
    l_io_new, l_io_set_disconnect_handler in *.
  monad.
  repeat case_match; simplify_eq; fields.
  all: try lia; try congruence; try contradiction.
  all: try (exfalso; destruct Hnew; [lia | congruence]).
  all: eexists; (split; [reflexivity|]); fields;
    rewrite ?app_nil_r;
    repeat split; first [reflexivity | congruence].
Qed.

(** X12.  [on_disconnected] closes the connection (the outside world
    after the call is what [modbus_close] on the context makes of it),
    calls the disconnected callback once, if there is one, with the user
    data it was called with, destroys the watch [modbus_io] points to
    (not the one it was called with), sets [modbus_io] to NULL and arms
    the timeout of [connect_to] for 5 seconds.  The context stays
    allocated and nothing else changes. *)
Theorem disconnect_rearms_timer s s1 io ud hw i ht t :
  modbus_close (modbus_ctx s) s = Ok tt s1 ->
  modbus_io s = Some hw ->
  ios s !! hw = Some i ->
  connect_to s = Some ht ->
  timeouts s !! ht = Some t ->
  exists s',
    on_disconnected io ud s = Ok tt s' /\
    modbus_io s' = None /\
    ios s' = delete hw (ios s) /\
    timeouts s' = <[ht := {| expiry := Some 5000;
                             timeout_data := timeout_data t |}]>
                    (timeouts s) /\
    trace s' = trace s ++ match disconn_cb s with
                          | Some f => [Disconnected f ud]
                          | None => []
                          end /\
    connect_to s' = connect_to s /\
    modbus_ctx s' = modbus_ctx s /\
    contexts s' = contexts s /\
    env s' = ext_close P (modbus_ctx s) (env s) /\
    env s' = env s1 /\
    connection_interface s' = connection_interface s /\
    conn_cb s' = conn_cb s /\
    disconn_cb s' = disconn_cb s /\
    next_handle s' = next_handle s.
Proof.
  intros Hclose Hio Hi Hto Ht.
  unfold on_disconnected, modbus_close, valid_ctx, l_io_destroy,
    l_timeout_modify in *.
  monad.
  repeat case_match; simplify_eq; fields.
  all: try lia; try congruence; try contradiction.
  all: try match goal with
         | H : (0 <? RECONNECT_TIMEOUT) = false |- _ => discriminate H
         end.
  all: same_values.
  all: eexists; (split; [reflexivity|]); fields;
    rewrite ?app_nil_r;
    repeat split; first [reflexivity | congruence].
Qed.

End ManagerCalls.

(** Symbolic execution of a computation on a state whose tables are
    known: projections, table lookups and the answers of the platform. *)
Ltac exec :=
  repeat first
    [ progress fields
    | progress cbv beta iota
    | rewrite lookup_insert_eq
    | rewrite lookup_singleton_eq
    | rewrite lookup_empty
    | rewrite insert_singleton_eq
    | rewrite insert_insert_eq
    | rewrite insert_empty
    | rewrite delete_singleton_eq
    | rewrite delete_empty
    | rewrite decide_True
        by (rewrite ?elem_of_union, ?elem_of_singleton; auto)
    | progress change (0 <? RECONNECT_TIMEOUT) with true
    | match goal with
      | |- context [let '(_, _) := ?x in _] => destruct x
      | |- context [if ?b then _ else _] =>
          lazymatch b with
          | decide _ => fail
          | _ => destruct b eqn:?
          end
      | |- context [match ?o with Some _ => _ | None => _ end] =>
          is_var o; destruct o
      end ].

(** The invariant of a running session on an explicit state. *)
Ltac running_goal :=
  eexists; split; [reflexivity|];
  unfold running_inv, timer_ok, watch_ok, ctx_ok; fields;
  rewrite ?insert_singleton_eq, ?insert_insert_eq, ?insert_empty,
    ?delete_singleton_eq, ?delete_empty;
  repeat match goal with
    | |- _ /\ _ => split
    | |- exists _, _ => eexists
    | |- is_Some (Some _) => eexists; reflexivity
    | |- forall _ _, _ !! _ = Some _ -> _ =>
        let H := fresh in
        intros ? ? H; apply lookup_singleton_Some in H as [? ?]; subst
    end;
  try reflexivity; try assumption; try lia.

(** ** More on the connection manager: running sessions *)

Section ManagerMore.

Context {P : platform}.
Implicit Types (s : state P).

Lemma attempt_connect_runs s h t ms :
  running_inv s ->
  timeouts s !! h = Some t ->
  expiry t = Some ms ->
  exists s',
    attempt_connect (Some h) (timeout_data t) (fired h t s) = Ok tt s' /\
    running_inv s'.
Proof.
  intros (Ht & Hw & Hc) Hlook Hms.
  unfold running_inv, timer_ok, watch_ok, ctx_ok in *.
  destruct s as [ci ct mio mctx ccb dcb ts ws cs nh w tr]. fields.
  destruct Hc as [[d ->] Hc].
  destruct ct as [h0|]; [|subst ts; rewrite lookup_empty in Hlook; discriminate].
  destruct Ht as (t0 & -> & Hdata & Hlt).
  apply lookup_singleton_Some in Hlook as [-> ->].
  destruct mio as [hw|].
  { destruct Hw as (fd & _ & _ & Hoff).
    specialize (Hoff h t (lookup_singleton_eq _ _)). congruence. }
  subst ws.
  destruct mctx as [c|]; [destruct Hc as [-> Hc]|subst cs].
  all: unfold attempt_connect, modbus_connect, modbus_get_socket, valid_ctx,
    l_timeout_modify, l_io_new, l_io_set_disconnect_handler.
  all: monad; exec.
  all: running_goal.
Qed.

Lemma on_disconnected_runs s h i ud :
  running_inv s ->
  ios s !! h = Some i ->
  disconnect_data i = Some ud ->
  exists s',
    on_disconnected (Some h) ud (hung_up h i s) = Ok tt s' /\
    running_inv s'.
Proof.
  intros (Ht & Hw & Hc) Hlook Hud.
  unfold running_inv, timer_ok, watch_ok, ctx_ok in *.
  destruct s as [ci ct mio mctx ccb dcb ts ws cs nh w tr]. fields.
  destruct Hc as [[d ->] Hc].
  destruct mio as [hw|]; [|subst ws; rewrite lookup_empty in Hlook; discriminate].
  destruct Hw as (fd & -> & Hlt & Hoff).
  apply lookup_singleton_Some in Hlook as [-> <-].
  destruct ct as [h0|]; [destruct Ht as (t0 & -> & Hdata & Hlt0)|subst ts].
  all: destruct mctx as [c|]; [destruct Hc as [-> Hc]|subst cs].
  all: unfold on_disconnected, modbus_close, valid_ctx, l_io_destroy,
    l_timeout_modify.
  all: monad; exec.
  all: running_goal.
Qed.


Lemma read_runs s reg_addr bit_offset out :
  running_inv s ->
  exists r s',
    modbus_read_data reg_addr bit_offset out s = Ok r s' /\
    running_inv s'.
Proof.
  intros (Ht & Hw & Hc).
  unfold running_inv, timer_ok, watch_ok, ctx_ok in *.
  destruct s as [ci ct mio mctx ccb dcb ts ws cs nh w tr]. fields.
  destruct Hc as [[d ->] Hc].
  destruct mctx as [c|]; [destruct Hc as [-> Hc]|subst cs].
  all: unfold modbus_read_data, read_switch, driver_read, driver, valid_ctx.
  all: monad; exec.
  all: do 2 eexists; (split; [reflexivity|]); fields; repeat split; eauto.
Qed.

Lemma start_runs (w : world P) url slave_id ccb dcb ud :
  exists rc s',
    modbus_start url slave_id ccb dcb ud (initial w) = Ok rc s' /\
    (rc = 0 -> running_inv s').
Proof.
  unfold modbus_start, initial.
  destruct (selected_table url) as [table|].
  2: { do 2 eexists. split; [reflexivity|]. discriminate. }
  unfold driver_create, driver, modbus_set_slave, valid_ctx,
    l_timeout_create_ms.
  monad; exec.
  all: do 2 eexists; (split; [reflexivity|]); intros _.
  all: unfold running_inv, timer_ok, watch_ok, ctx_ok; fields.
  all: rewrite ?insert_empty, ?(right_id_L ∅ (∪)).
  all: repeat match goal with
         | |- _ /\ _ => split
         | |- exists _, _ => eexists
         | |- is_Some (Some _) => eexists; reflexivity
         end; try reflexivity; try lia.
Qed.

Lemma start_running (w : world P) url slave_id ccb dcb ud s0 :
  modbus_start url slave_id ccb dcb ud (initial w) = Ok 0 s0 ->
  running_inv s0.
Proof.
  intros H.
  destruct (start_runs w url slave_id ccb dcb ud) as (rc & s' & H' & Hinv).
  rewrite H in H'. injection H' as <- <-. now apply Hinv.
Qed.

Lemma event_step_running s s' :
  running_inv s -> event_step s s' -> running_inv s'.
Proof.
  intros Hinv Hstep. destruct Hstep as [h t ms s s' Hl Hms H|h i ud s s' Hl Hud H
                                       |reg_addr bit_offset out r s s' H].
  - destruct (attempt_connect_runs s h t ms Hinv Hl Hms) as (s1 & H1 & Hinv1).
    congruence.
  - destruct (on_disconnected_runs s h i ud Hinv Hl Hud) as (s1 & H1 & Hinv1).
    congruence.
  - destruct (read_runs s reg_addr bit_offset out Hinv) as (r1 & s1 & H1 & Hinv1).
    congruence.
Qed.

Lemma running_inv_holds s : running_state s -> running_inv s.
Proof.
  intros (w & url & slave_id & ccb & dcb & ud & s0 & Hstart & Hsteps).
  apply start_running in Hstart.
  induction Hsteps as [|s1 s2 s3 Hstep _ IH]; [assumption|].
  apply IH. eapply event_step_running; eassumption.
Qed.

Lemma restart_runs s c url slave_id ccb dcb ud
    (table : modbus_driver (world P)) :
  running_inv s ->
  modbus_ctx s = Some c ->
  selected_table url = Some table ->
  exists rc s',
    modbus_start url slave_id ccb dcb ud s = Ok rc s' /\
    c ∈ contexts s' /\
    modbus_ctx s' <> Some c /\
    (forall h t, timeouts s !! h = Some t -> timeouts s' !! h = Some t).
Proof.
  intros (Ht & Hw & Hc) Hctx Hsel.
  unfold running_inv, timer_ok, watch_ok, ctx_ok in *.
  destruct s as [ci ct mio mctx ccb0 dcb0 ts ws cs nh w tr]. fields.
  subst mctx. destruct Hc as [_ [-> Hc]].
  unfold modbus_start. rewrite Hsel.
  unfold driver_create, driver, modbus_set_slave, valid_ctx,
    l_timeout_create_ms.
  monad; exec.
  all: do 2 eexists; (split; [reflexivity|]); fields.
  all: repeat split; try (intros [= ->]; lia); try set_solver.
  all: intros h t Hl; try exact Hl.
  all: rewrite lookup_insert_ne; [exact Hl|].
  all: destruct ct as [h0|]; [|subst ts; rewrite lookup_empty in Hl; discriminate].
  all: destruct Ht as (t0 & -> & _ & Hlt).
  all: apply lookup_singleton_Some in Hl as [-> _]; lia.
Qed.

(** X13.  In a session that was started with success and not stopped,
    nothing faults: whenever the timeout is armed [attempt_connect] runs
    to its end, whenever a watch has its handler [on_disconnected] runs
    to its end, and every read returns; no call goes through a NULL
    pointer and none uses a released object. *)
Theorem running_session_never_faults s :
  running_state s ->
  (forall h t ms,
     timeouts s !! h = Some t -> expiry t = Some ms ->
     exists s',
       attempt_connect (Some h) (timeout_data t) (fired h t s) = Ok tt s') /\
  (forall h i ud,
     ios s !! h = Some i -> disconnect_data i = Some ud ->
     exists s', on_disconnected (Some h) ud (hung_up h i s) = Ok tt s') /\
  (forall reg_addr bit_offset out,
     exists r s', modbus_read_data reg_addr bit_offset out s = Ok r s').
Proof.
  intros Hs. apply running_inv_holds in Hs. split; [|split].
  - intros h t ms Hl Hms.
    destruct (attempt_connect_runs s h t ms Hs Hl Hms) as (s' & H & _). eauto.
  - intros h i ud Hl Hud.
    destruct (on_disconnected_runs s h i ud Hs Hl Hud) as (s' & H & _). eauto.
  - intros reg_addr bit_offset out.
    destruct (read_runs s reg_addr bit_offset out Hs) as (r & s' & H & _). eauto.
Qed.


(** X15.  [modbus_start] does not refuse a second call: in a running
    session it goes ahead on any URL with a known prefix, and the
    context of the session is then still allocated but [modbus_ctx] does
    not point to it any more; the timeout of the session stays as it
    was. *)
Theorem restart_leaks_context s c url slave_id ccb dcb ud
    (table : modbus_driver (world P)) :
  running_state s ->
  modbus_ctx s = Some c ->
  selected_table url = Some table ->
  exists rc s',
    modbus_start url slave_id ccb dcb ud s = Ok rc s' /\
    c ∈ contexts s' /\
    modbus_ctx s' <> Some c /\
    (forall h t, timeouts s !! h = Some t -> timeouts s' !! h = Some t).
Proof.
  intros Hs. apply restart_runs, running_inv_holds, Hs.
Qed.

End ManagerMore.

(** ** The order of the callbacks *)

Lemma alternates_from_app b tr tr' :
  alternates_from b (tr ++ tr')
  = match alternates_from b tr with
    | Some b' => alternates_from b' tr'
    | None => None
    end.
Proof.
  revert b. induction tr as [|e tr IH]; intros b; [reflexivity|].
  destruct e, b; cbn; auto.
Qed.

Section Alternation.

Context {P : platform}.
Implicit Types (s : state P).

Lemma attempt_connect_alternates s s' h t ms :
  session_inv s ->
  alternation_inv s ->
  timeouts s !! h = Some t ->
  expiry t = Some ms ->
  attempt_connect (Some h) (timeout_data t) (fired h t s) = Ok tt s' ->
  alternation_inv s'.
Proof.
  intros (Htimers & _ & _) Halt Ht Hms.
  assert (Harmed : timer_armed s) by (exists h, t, ms; auto).
  destruct (Htimers _ _ Ht) as [Hto _].
  unfold attempt_connect, modbus_connect, modbus_get_socket, valid_ctx,
    l_timeout_modify, l_io_new, l_io_set_disconnect_handler.
  monad.
  intros H.
  repeat case_match; simplify_eq; fields.
  all: unfold alternation_inv, callbacks_set in *; fields.
  all: intros [Hc Hd].
  all: try (exfalso; destruct Hc as [? Hc]; congruence).
  all: destruct Halt as (b & Hb & Harm & Hwatch);
    [split; [first [exact Hc | eauto] | exact Hd]|].
  all: specialize (Harm Harmed); subst b.
  all: unfold timer_armed, watch_live in *.
  all: first
    [ exists true; split; [exact Hb|]; split; [intros _; reflexivity|];
      intros (hw & i & Hi); fields; apply Hwatch;
      exists hw, i; exact Hi
    | exists false; split;
      [rewrite alternates_from_app, Hb; reflexivity|]; split;
      [|intros _; reflexivity];
      intros (h' & t' & ms' & Hl & He); fields; exfalso;
      apply lookup_insert_Some in Hl as [[<- <-]|[Hne Hl]];
      [discriminate He|];
      destruct (Htimers _ _ Hl) as [Hto' _]; congruence ].
Qed.
Lemma on_disconnected_alternates s s' h i ud :
  session_inv s ->
  alternation_inv s ->
  ios s !! h = Some i ->
  disconnect_data i = Some ud ->
  on_disconnected (Some h) ud (hung_up h i s) = Ok tt s' ->
  alternation_inv s'.
Proof.
  intros (_ & Hios & _) Halt Hi Hud.
  assert (Hlive : watch_live s) by (exists h, i; exact Hi).
  destruct (Hios _ _ Hi) as (Hio & _ & _).
  unfold on_disconnected, modbus_close, valid_ctx, l_io_destroy,
    l_timeout_modify.
  monad.
  intros H.
  repeat case_match; simplify_eq; fields.
  all: unfold alternation_inv, callbacks_set in *; fields.
  all: intros [Hc Hd].
  all: try (exfalso; destruct Hd as [? Hd]; congruence).
  all: destruct Halt as (b & Hb & Harm & Hwatch);
    [split; [exact Hc | first [exact Hd | eauto]]|].
  all: specialize (Hwatch Hlive); subst b.
  all: unfold timer_armed, watch_live in *.
  all: exists true; split;
    [rewrite alternates_from_app, Hb; reflexivity|]; split;
    [intros _; reflexivity|].
  all: intros (h' & i' & Hl); fields; exfalso.
  all: apply lookup_delete_Some in Hl as [Hne Hl].
  all: apply lookup_insert_Some in Hl as [[<- _]|[_ Hl]];
    [congruence|].
  all: destruct (Hios _ _ Hl) as (Hio' & _ & _); congruence.
Qed.

Lemma stop_alternates s s' :
  alternation_inv s ->
  modbus_stop s = Ok tt s' ->
  alternation_inv s'.
Proof.
  intros Halt.
  unfold modbus_stop, l_timeout_remove, l_io_destroy, driver_destroy, driver,
    valid_ctx.
  monad.
  intros H.
  repeat case_match; simplify_eq; fields.
  all: unfold alternation_inv, callbacks_set in *; fields.
  all: intros Hcb; destruct (Halt Hcb) as (b & Hb & Harm & Hwatch).
  all: unfold timer_armed, watch_live in *.
  all: exists b; split; [exact Hb|]; split.
  all: try (intros (h' & t' & ms' & Hl & He); fields; apply Harm;
            try (apply lookup_delete_Some in Hl as [_ Hl]); eauto).
  all: intros (h' & i' & Hl); fields; apply Hwatch;
    try (apply lookup_delete_Some in Hl as [_ Hl]); eauto.
Qed.

Lemma read_preserves_session s s' reg_addr bit_offset out r :
  session_inv s ->
  modbus_read_data reg_addr bit_offset out s = Ok r s' ->
  session_inv s'.
Proof.
  intros (Htimers & Hios & Htrace) H.
  rewrite (modbus_read_data_frame _ _ _ _ _ _ H).
  unfold session_inv, callback_argument. fields.
  split; [exact Htimers|]. split; [exact Hios|].
  intros ud [cb Hud]. apply Htrace. exists cb.
  rewrite !elem_of_app in Hud.
  destruct (decide (recognised bit_offset));
    rewrite ?elem_of_nil, ?list_elem_of_singleton in Hud;
    intuition discriminate.
Qed.

Lemma read_alternates s s' reg_addr bit_offset out r :
  alternation_inv s ->
  modbus_read_data reg_addr bit_offset out s = Ok r s' ->
  alternation_inv s'.
Proof.
  intros Halt H.
  rewrite (modbus_read_data_frame _ _ _ _ _ _ H).
  unfold alternation_inv, callbacks_set, timer_armed, watch_live in *. fields.
  intros Hcb. destruct (Halt Hcb) as (b & Hb & Harm & Hwatch).
  exists b. split; [|split; assumption].
  rewrite alternates_from_app, Hb.
  destruct (decide (recognised bit_offset)); reflexivity.
Qed.

Lemma start_alternates (w : world P) url slave_id ccb dcb ud rc s0 :
  modbus_start url slave_id ccb dcb ud (initial w) = Ok rc s0 ->
  alternation_inv s0.
Proof.
  unfold modbus_start, driver_create, driver, modbus_set_slave, valid_ctx,
    l_timeout_create_ms.
  monad.
  intros H.
  repeat case_match; simplify_eq; fields.
  all: unfold alternation_inv, timer_armed, watch_live; fields.
  all: cbn [initial timeouts ios trace] in *.
  all: intros _; exists true; split; [reflexivity|]; split;
    [intros _; reflexivity|].
  all: intros (h & i & Hl); rewrite lookup_empty in Hl; discriminate Hl.
Qed.

Lemma activity_preserves s s' :
  session_inv s /\ alternation_inv s ->
  activity s s' ->
  session_inv s' /\ alternation_inv s'.
Proof.
  intros [Hinv Halt] Hstep.
  destruct Hstep as [s s' Hev|s s' Hstop].
  - destruct Hev as [h t ms s s' Hl Hms H|h i ud s s' Hl Hud H
                    |reg_addr bit_offset out r s s' H].
    + split; [eapply attempt_connect_preserves; eassumption
             |eapply attempt_connect_alternates; eassumption].
    + split; [eapply on_disconnected_preserves; eassumption
             |eapply on_disconnected_alternates; eassumption].
    + split; [eapply read_preserves_session; eassumption
             |eapply read_alternates; eassumption].
  - split; [eapply modbus_stop_preserves; eassumption
           |eapply stop_alternates; eassumption].
Qed.

Lemma active_inv_holds s :
  active_state s -> session_inv s /\ alternation_inv s.
Proof.
  intros (w & url & slave_id & ccb & dcb & ud & rc & s0 & Hstart & Hsteps).
  assert (H0 : session_inv s0 /\ alternation_inv s0).
  { split; [eapply start_establishes | eapply start_alternates]; eassumption. }
  clear Hstart.
  induction Hsteps as [|s1 s2 s3 Hstep _ IH]; [assumption|].
  apply IH. eapply activity_preserves; eassumption.
Qed.

(** X16.  After one [modbus_start] with both callbacks, whatever the
    timeout, the watch, the reads and [modbus_stop] do afterwards, the
    calls of the two callbacks alternate and the first is a call of the
    connected callback: neither is ever called twice in a row. *)
Theorem callbacks_alternate s :
  active_state s ->
  callbacks_set s ->
  is_Some (alternates_from true (trace s)).
Proof.
  intros Hs Hcb. destruct (active_inv_holds s Hs) as [_ Halt].
  destruct (Halt Hcb) as (b & Hb & _). exists b. exact Hb.
Qed.

End Alternation.

(** ** The entry point *)

Lemma signal_handler_quits signo :
  existsb is_quit (signal_handler signo)
  = (signo =? SIGINT) || (signo =? SIGTERM).
Proof. unfold signal_handler. now destruct ((signo =? SIGINT) || (signo =? SIGTERM)). Qed.

(** The main loop returns exactly when a signal asks for it. *)
Lemma main_loop_returns sigs :
  snd (l_main_run_with_signal sigs) = quit_requested sigs.
Proof.
  induction sigs as [|signo sigs IH]; [reflexivity|].
  cbn [l_main_run_with_signal quit_requested existsb].
  rewrite signal_handler_quits.
  destruct ((signo =? SIGINT) || (signo =? SIGTERM)); [reflexivity|].
  destruct (l_main_run_with_signal sigs) as [calls returned].
  exact IH.
Qed.

(** The handler only logs and quits. *)
Lemma main_loop_calls (p : call -> bool) sigs :
  p l_info = false -> p l_main_quit = false ->
  calls_of p (fst (l_main_run_with_signal sigs)) = 0%nat.
Proof.
  intros Hi Hq. unfold calls_of.
  induction sigs as [|signo sigs IH]; [reflexivity|].
  cbn [l_main_run_with_signal].
  assert (Hh : filter (fun c => p c = true) (signal_handler signo) = []).
  { unfold signal_handler.
    destruct ((signo =? SIGINT) || (signo =? SIGTERM)); [|reflexivity].
    rewrite filter_cons_False by congruence.
    rewrite filter_cons_False by congruence. reflexivity. }
  destruct (existsb is_quit (signal_handler signo)).
  - cbn [fst]. now rewrite Hh.
  - destruct (l_main_run_with_signal sigs) as [calls returned].
    cbn [fst] in *. rewrite filter_app, Hh. exact IH.
Qed.

Lemma calls_of_app p tr tr' :
  calls_of p (tr ++ tr') = (calls_of p tr + calls_of p tr')%nat.
Proof. unfold calls_of. now rewrite filter_app, length_app. Qed.

(** The paths of [main]: the answers of the outside, case by case. *)
Ltac main_paths o :=
  let returned := fresh "returned" in
  let handled := fresh "handled" in
  let Hloop := fresh "Hloop" in
  let Hcalls := fresh "Hcalls" in
  destruct o as [[[hp dt cp dp rp]|] init serr drc derrno sigs];
  unfold main, detach_daemon;
  cbn [loaded main_init start_err daemon_rc daemon_errno signals
       help detach credentials_path device_path rabbitmq_path];
  pose proof (main_loop_returns sigs) as Hloop;
  pose proof (fun p => main_loop_calls p sigs) as Hcalls;
  destruct (l_main_run_with_signal sigs) as [handled returned];
  cbn [fst snd] in Hloop, Hcalls; subst returned;
  try destruct hp; try destruct init; try destruct dt; cbn [negb andb];
  try destruct (Z.eqb_spec serr 0); cbn [negb andb];
  try destruct (Z.eqb_spec drc 0); cbn [negb andb];
  try destruct (Z.eqb_spec (- derrno) 0); cbn [negb andb];
  try destruct (Z.eqb_spec 0 0); cbn [negb andb];
  try destruct (quit_requested sigs); cbn [fst snd];
  cbn [loaded main_init start_err daemon_rc daemon_errno signals
       help detach credentials_path device_path rabbitmq_path].

(** The number of calls of one kind on a path. *)
Ltac count_calls Hcalls :=
  unfold set_device_settings, free_device_settings;
  rewrite ?calls_of_app, ?Hcalls by reflexivity;
  try reflexivity.

(** X17.  [main] returns EXIT_SUCCESS exactly when the settings were
    loaded and either help was asked for, or ELL started, [device_start]
    returned 0, detaching (if asked for) did not report an error, and a
    SIGINT or SIGTERM arrived.  It is still in the main loop exactly when
    all of that holds but no such signal has arrived.  On every other
    path it returns EXIT_FAILURE. *)
Theorem main_exit_status o :
  (fst (main o) = Some EXIT_SUCCESS <->
   exists st,
     loaded o = Some st /\
     (help st = true \/
      (main_init o = true /\ start_err o = 0 /\
       (detach st = true -> daemon_rc o = 0 \/ daemon_errno o = 0) /\
       quit_requested (signals o) = true))) /\
  (fst (main o) = None <->
   exists st,
     loaded o = Some st /\ help st = false /\
     main_init o = true /\ start_err o = 0 /\
     (detach st = true -> daemon_rc o = 0 \/ daemon_errno o = 0) /\
     quit_requested (signals o) = false) /\
  (fst (main o) = Some EXIT_SUCCESS \/ fst (main o) = Some EXIT_FAILURE \/
   fst (main o) = None).
Proof.
  main_paths o.
  all: split; [|split; [|auto]]; split.
  all: try (intros [st [[= <-] H]]; cbn in H).
  all: try (intros [st [[=] _]]).
  all: try discriminate.
  all: try (intros _; eexists; split; [reflexivity|]; cbn).
  all: intuition (try discriminate; try lia; auto).
Qed.

(** X18.  On every path [settings_free] is called exactly once when
    [settings_load] gave settings, and never when it gave NULL; the
    settings are released before the main loop is entered. *)
Theorem settings_freed_once o :
  calls_of is_settings_free (snd (main o))
  = match loaded o with Some _ => 1%nat | None => 0%nat end.
Proof. main_paths o; count_calls Hcalls. Qed.

(** X19.  On every path each block [main] allocates ([conf_files] and
    the three copied paths) is freed exactly once, and nothing is freed
    that was not allocated: the copies of the paths live only around
    [device_start], failed or not. *)
Theorem conf_files_freed_once o b :
  calls_of (frees b) (snd (main o)) = calls_of (allocates b) (snd (main o)) /\
  (calls_of (allocates b) (snd (main o)) <= 1)%nat.
Proof.
  main_paths o; destruct b; split; count_calls Hcalls;
    vm_compute; lia.
Qed.

(** X20.  When [main] returns, [l_main_exit] has been called once if
    [l_main_init] was called and succeeded, and not at all otherwise. *)
Theorem main_exit_pairs_with_init o :
  fst (main o) <> None ->
  calls_of is_main_exit (snd (main o))
  = if main_init o then calls_of is_main_init (snd (main o)) else 0%nat.
Proof.
  main_paths o; intros Hret; try (now destruct Hret); count_calls Hcalls.
Qed.

(** X21.  [device_destroy] is called at most once, and exactly when
    [main] returns EXIT_SUCCESS on a path that is not the help path,
    that is, after the main loop has returned. *)
Theorem device_destroyed_only_after_loop o :
  (calls_of is_device_destroy (snd (main o)) <= 1)%nat /\
  (calls_of is_device_destroy (snd (main o)) = 1%nat <->
   exists st,
     loaded o = Some st /\ help st = false /\
     fst (main o) = Some EXIT_SUCCESS).
Proof.
  main_paths o; (split; [|split]); count_calls Hcalls.
  all: try (vm_compute; lia).
  all: try (intros [st [[= <-] [H1 H2]]]; cbn in *; discriminate).
  all: try (intros [st [[=] _]]).
  all: try (intros H; vm_compute in H; discriminate H).
  all: try (intros _; eexists; split; [reflexivity|]; split; reflexivity).
Qed.

(** X22.  When detaching is asked for and [daemon] fails with a nonzero
    [errno], [main] returns EXIT_FAILURE after [device_start] has
    succeeded and without calling [device_destroy]; it has freed the
    settings and [conf_files] and called [l_main_exit]. *)
Theorem detach_failure_skips_device_destroy o st :
  loaded o = Some st ->
  help st = false ->
  main_init o = true ->
  start_err o = 0 ->
  detach st = true ->
  daemon_rc o <> 0 ->
  daemon_errno o <> 0 ->
  fst (main o) = Some EXIT_FAILURE /\
  calls_of is_device_start (snd (main o)) = 1%nat /\
  calls_of is_device_destroy (snd (main o)) = 0%nat /\
  calls_of is_main_exit (snd (main o)) = 1%nat /\
  calls_of is_settings_free (snd (main o)) = 1%nat.
Proof.
  intros Hl Hh Hi Hs Hd Hrc He.
  unfold main, detach_daemon. rewrite Hl, Hh, Hi, Hs, Hd.
  change (0 =? 0) with true. cbn [negb andb].
  destruct (Z.eqb_spec (daemon_rc o) 0) as [?|_]; [contradiction|].
  cbn [negb].
  destruct (Z.eqb_spec (- daemon_errno o) 0) as [?|_]; [lia|].
  cbn [negb andb fst snd].
  repeat split; reflexivity.
Qed.

(** ** The further scenarios *)

Lemma connected_event : event_step (started true 5) connected.
Proof.
  apply (timer_event 2%nat first_timeout 1); vm_compute; reflexivity.
Qed.

Lemma dropped_event : event_step connected dropped.
Proof.
  apply (hang_up_event 3%nat {| io_fd := 3; disconnect_data := Some NULL |}
           NULL); vm_compute; reflexivity.
Qed.

Lemma started_is_running : running_state (started true 5).
Proof.
  exists (0 : world (test_platform true 5)), "tcp://10.0.0.5:502"%string, 17,
    (Some 1%nat), (Some 2%nat), 42, (started true 5).
  split; [vm_compute; reflexivity | constructor].
Qed.

Lemma connected_is_running : running_state connected.
Proof.
  destruct started_is_running as (w & url & i & c & d & u & s0 & H1 & H2).
  exists w, url, i, c, d, u, s0. split; [exact H1|].
  eapply rtc_r; [exact H2 | exact connected_event].
Qed.

Lemma dropped_is_active : active_state dropped.
Proof.
  exists (0 : world (test_platform true 5)), "tcp://10.0.0.5:502"%string, 17,
    (Some 1%nat), (Some 2%nat), 42, 0, (started true 5).
  split; [vm_compute; reflexivity|].
  apply (rtc_l _ _ connected); [|apply rtc_once].
  - apply event_happens, connected_event.
  - apply event_happens, dropped_event.
Qed.

(** A 32-bit read while connected. *)
Lemma read_keeps_connection_state_witness :
  modbus_read_data 7 TYPE_U32 out9 connected
  = Ok (2, [5; 0; 0; 0; 0; 0; 0; 0; 9; 9])
       (after (modbus_read_data 7 TYPE_U32 out9 connected) connected) /\
  modbus_io (after (modbus_read_data 7 TYPE_U32 out9 connected) connected)
  = modbus_io connected.
Proof.
  assert (H : modbus_read_data 7 TYPE_U32 out9 connected
              = Ok (2, [5; 0; 0; 0; 0; 0; 0; 0; 9; 9])
                   (after (modbus_read_data 7 TYPE_U32 out9 connected)
                          connected))
    by (vm_compute; reflexivity).
  split; [exact H|].
  exact (proj1 (proj2 (proj2 (read_keeps_connection_state _ _ _ _ _ _ H)))).
Defined.

(** A byte read in a process that has not called [modbus_start]. *)
Lemma read_before_start_calls_null_witness :
  connection_interface (fresh true 5) = None /\
  recognised TYPE_BYTE /\
  modbus_read_data 0 TYPE_BYTE out9 (fresh true 5) = Fault NullCall.
Proof.
  assert (Hrec : recognised TYPE_BYTE)
    by (unfold recognised; rewrite !elem_of_cons; auto).
  split; [reflexivity|]. split; [exact Hrec|].
  exact (read_before_start_calls_null (fresh true 5) 0 TYPE_BYTE out9
           eq_refl Hrec).
Defined.

(** A 16-bit read after [modbus_stop]. *)
Lemma read_after_stop_uses_freed_context_witness :
  modbus_stop (started true 5) = Ok tt stopped /\
  modbus_ctx (started true 5) <> None /\
  recognised TYPE_U16 /\
  modbus_read_data 0 TYPE_U16 out9 stopped = Fault UseAfterFree.
Proof.
  assert (Hstop : modbus_stop (started true 5) = Ok tt stopped)
    by (vm_compute; reflexivity).
  assert (Hctx : modbus_ctx (started true 5) <> None)
    by (vm_compute; discriminate).
  assert (Hrec : recognised TYPE_U16)
    by (unfold recognised; rewrite !elem_of_cons; auto).
  split; [exact Hstop|]. split; [exact Hctx|]. split; [exact Hrec|].
  exact (read_after_stop_uses_freed_context _ _ 0 TYPE_U16 out9
           Hstop Hctx Hrec).
Defined.

(** A 16-bit read of 0x1234 on the little-endian test platform. *)
Lemma integer_read_round_trip_witness :
  exists out',
    modbus_read_data 0 TYPE_U16 out9 (started true 4660)
    = Ok (1, out')
         (after (driver_read read_u16 TYPE_U16 0 (started true 4660))
                (started true 4660)) /\
    object_value false (take 2 out') = 4660.
Proof.
  destruct (integer_read_round_trip (started true 4660)
              (after (driver_read read_u16 TYPE_U16 0 (started true 4660))
                     (started true 4660))
              0 TYPE_U16 read_u16 1 4660 out9)
    as (out' & H1 & H2).
  - apply list_elem_of_here.
  - lia.
  - vm_compute. reflexivity.
  - exists out'. split; [exact H1 | exact H2].
Defined.

(** A byte read where the driver leaves 2 for coil 0 and 1 for coil 1:
    both land in bit 1. *)
Lemma byte_read_packs_any_bytes_witness :
  exists b,
    modbus_read_data 0 TYPE_BYTE out9
      (lab_started true true true [2; 1; 0; 0; 0; 0; 0; 0])
    = Ok (8, b :: replicate 7 0 ++ drop 8 out9)
         (after (driver_read read_byte TYPE_BYTE 0
                   (lab_started true true true [2; 1; 0; 0; 0; 0; 0; 0]))
                (lab_started true true true [2; 1; 0; 0; 0; 0; 0; 0])) /\
    Z.testbit b 0 = false /\ Z.testbit b 1 = true.
Proof.
  destruct (byte_read_packs_any_bytes
              (lab_started true true true [2; 1; 0; 0; 0; 0; 0; 0])
              (after (driver_read read_byte TYPE_BYTE 0
                        (lab_started true true true [2; 1; 0; 0; 0; 0; 0; 0]))
                     (lab_started true true true [2; 1; 0; 0; 0; 0; 0; 0]))
              0 8 [2; 1; 0; 0; 0; 0; 0; 0] out9)
    as (b & H1 & _ & H2).
  - lia.
  - vm_compute. reflexivity.
  - exists b. split; [exact H1|]. split; [apply (H2 0) | apply (H2 1)]; lia.
Defined.

(** [modbus_start] on a UDP URL. *)
Lemma start_rejects_unknown_scheme_witness :
  ~ begins_with "tcp://" "udp://10.0.0.5:502" /\
  ~ begins_with "serial://" "udp://10.0.0.5:502" /\
  modbus_start "udp://10.0.0.5:502" 17 (Some 1%nat) (Some 2%nat) 42
    (fresh true 5) = Ok (- EINVAL) (fresh true 5).
Proof.
  assert (Ht : ~ begins_with "tcp://" "udp://10.0.0.5:502")
    by (intros [tl H]; discriminate H).
  assert (Hr : ~ begins_with "serial://" "udp://10.0.0.5:502")
    by (intros [tl H]; discriminate H).
  split; [exact Ht|]. split; [exact Hr|].
  exact (start_rejects_unknown_scheme (fresh true 5) _ 17 (Some 1%nat)
           (Some 2%nat) 42 Ht Hr).
Defined.

(** [modbus_start] where the driver is out of memory. *)
Lemma start_create_failure_witness :
  exists s',
    modbus_start "serial:///dev/ttyUSB0" 1 (Some 1%nat) (Some 2%nat) 0
      (lab_fresh false true true []) = Ok (- ENOMEM) s' /\
    modbus_ctx s' = None.
Proof.
  destruct (start_create_failure (lab_fresh false true true [])
              "serial:///dev/ttyUSB0" 1 (Some 1%nat) (Some 2%nat) 0
              (lab_driver false []) ENOMEM)
    as (s' & H1 & H2 & _).
  - vm_compute. reflexivity.
  - reflexivity.
  - exists s'. split; [exact H1 | exact H2].
Defined.

(** [modbus_start] of the first scenario. *)
Lemma start_success_witness :
  exists s',
    modbus_start "tcp://10.0.0.5:502" 17 (Some 1%nat) (Some 2%nat) 42
      (fresh true 5) = Ok 0 s' /\
    connect_to s' = Some 2%nat /\
    trace s' = [].
Proof.
  destruct (start_success (fresh true 5) "tcp://10.0.0.5:502" 17
              (Some 1%nat) (Some 2%nat) 42 (test_driver 5) 0 0 0)
    as (s' & H1 & _ & _ & _ & H2 & _ & _ & _ & _ & _ & _ & H3).
  - vm_compute. reflexivity.
  - reflexivity.
  - reflexivity.
  - lia.
  - reflexivity.
  - exists s'. split; [exact H1|]. split; [exact H2 | exact H3].
Defined.

(** [modbus_start] where ELL cannot create the timeout. *)
Lemma start_without_timeout_witness :
  exists s',
    modbus_start "serial:///dev/ttyUSB0" 1 (Some 1%nat) (Some 2%nat) 0
      (lab_fresh true false true []) = Ok 0 s' /\
    connect_to s' = None.
Proof.
  destruct (start_without_timeout (lab_fresh true false true [])
              "serial:///dev/ttyUSB0" 1 (Some 1%nat) (Some 2%nat) 0
              (lab_driver true []) 0 0 0)
    as (s' & H1 & H2 & _).
  - vm_compute. reflexivity.
  - reflexivity.
  - reflexivity.
  - lia.
  - reflexivity.
  - exists s'. split; [exact H1 | exact H2].
Defined.

(** The first connection attempt of the first scenario. *)
Lemma connect_success_registers_watch_witness :
  exists s',
    attempt_connect (Some 2%nat) NULL (expired true) = Ok tt s' /\
    modbus_io s' = Some 3%nat /\
    trace s' = [Connected 1%nat NULL].
Proof.
  destruct (connect_success_registers_watch (expired true)
              (after (modbus_connect (modbus_ctx (expired true)) (expired true))
                     (expired true))
              (Some 2%nat) NULL 0 3)
    as (s' & H1 & H2 & _ & H3 & _).
  - vm_compute. reflexivity.
  - lia.
  - reflexivity.
  - lia.
  - reflexivity.
  - exists s'. split; [exact H1|]. split; [exact H2 | exact H3].
Defined.

(** The first connection attempt where ELL cannot make the watch. *)
Lemma connect_success_without_watch_witness :
  exists s',
    attempt_connect (Some 2%nat) NULL lab_expired = Ok tt s' /\
    modbus_io s' = None /\
    trace s' = [Connected 1%nat NULL].
Proof.
  destruct (connect_success_without_watch lab_expired
              (after (modbus_connect (modbus_ctx lab_expired) lab_expired)
                     lab_expired)
              (Some 2%nat) NULL 0 3)
    as (s' & H1 & H2 & _ & H3 & _).
  - vm_compute. reflexivity.
  - lia.
  - reflexivity.
  - right. reflexivity.
  - exists s'. split; [exact H1|]. split; [exact H2 | exact H3].
Defined.

(** The hang-up where the outside world counts the closings: one
    [modbus_close] has been made. *)
Lemma disconnect_rearms_timer_witness :
  exists s',
    on_disconnected (Some 3%nat) NULL counting_hanging_up = Ok tt s' /\
    modbus_io s' = None /\
    trace s' = [Connected 1%nat NULL; Disconnected 2%nat NULL] /\
    env s' = 1.
Proof.
  destruct (disconnect_rearms_timer counting_hanging_up
              (after (modbus_close (modbus_ctx counting_hanging_up)
                        counting_hanging_up)
                     counting_hanging_up)
              (Some 3%nat) NULL 3%nat
              {| io_fd := 3; disconnect_data := None |} 2%nat spent_timeout)
    as (s' & H1 & H2 & _ & _ & H3 & _ & _ & _ & H4 & _).
  - vm_compute. reflexivity.
  - vm_compute. reflexivity.
  - vm_compute. reflexivity.
  - vm_compute. reflexivity.
  - vm_compute. reflexivity.
  - exists s'. split; [exact H1|]. split; [exact H2|].
    split; [exact H3 | exact H4].
Defined.

(** A read with an unknown selector while connected. *)
Lemma running_session_never_faults_witness :
  running_state connected /\
  exists r s', modbus_read_data 0 3 out9 connected = Ok r s'.
Proof.
  split; [exact connected_is_running|].
  exact (proj2 (proj2 (running_session_never_faults connected
                         connected_is_running)) 0 3 out9).
Defined.


(** A second [modbus_start] while connected. *)
Lemma restart_leaks_context_witness :
  running_state connected /\
  exists rc s',
    modbus_start "serial:///dev/ttyUSB0" 1 None None NULL connected
    = Ok rc s' /\
    1%nat ∈ contexts s' /\ modbus_ctx s' <> Some 1%nat.
Proof.
  split; [exact connected_is_running|].
  destruct (restart_leaks_context connected 1%nat "serial:///dev/ttyUSB0" 1
              None None NULL (test_driver 5) connected_is_running)
    as (rc & s' & H1 & H2 & H3 & _).
  - vm_compute. reflexivity.
  - vm_compute. reflexivity.
  - exists rc, s'. split; [exact H1|]. split; [exact H2 | exact H3].
Defined.

(** The first scenario after the hang-up. *)
Lemma callbacks_alternate_witness :
  active_state dropped /\ callbacks_set dropped /\
  is_Some (alternates_from true (trace dropped)).
Proof.
  assert (Hcb : callbacks_set dropped)
    by (split; vm_compute; eexists; reflexivity).
  split; [exact dropped_is_active|]. split; [exact Hcb|].
  exact (callbacks_alternate dropped dropped_is_active Hcb).
Defined.

(** SIGTERM after SIGHUP, without detaching. *)
Lemma main_exit_pairs_with_init_witness :
  fst (main terminated) <> None /\
  calls_of is_main_exit (snd (main terminated)) = 1%nat.
Proof.
  assert (H : fst (main terminated) <> None) by (vm_compute; discriminate).
  split; [exact H|].
  exact (main_exit_pairs_with_init terminated H).
Defined.

(** [daemon] fails with EAGAIN. *)
Lemma detach_failure_skips_device_destroy_witness :
  fst (main daemon_fails) = Some EXIT_FAILURE /\
  calls_of is_device_start (snd (main daemon_fails)) = 1%nat /\
  calls_of is_device_destroy (snd (main daemon_fails)) = 0%nat.
Proof.
  destruct (detach_failure_skips_device_destroy daemon_fails
              (plain_settings true))
    as (H1 & H2 & H3 & _).
  - reflexivity.
  - reflexivity.
  - reflexivity.
  - reflexivity.
  - reflexivity.
  - vm_compute. discriminate.
  - vm_compute. discriminate.
  - split; [exact H1|]. split; [exact H2 | exact H3].
Defined.
